(** * metalsmith-nestedlayouts: layout resolution and ordered rendering

    A shallow embedding of [lib/index.js].  The source file carries two
    versions of the plugin: the one that walks the chain of outer layouts for
    every content file (module-level functions up to the first
    [module.exports], called the chain variant here) and the one that first
    renders the forest of layouts and then the content files (the nested
    variant, with [createLayoutTree] and [renderNestedLayouts]).  The helpers
    [getTransformer], [getLayout] and [validate] are the same in both. *)

From Stdlib Require Import String Ascii List Bool Arith NArith Lia.
Import ListNotations.
Open Scope string_scope.
Open Scope list_scope.

(** ** Data model *)

(** The [layout] property of a record or the [default] option, as front
    matter and options give it: absent, the literal [false], or a name. *)
Inductive JsLayout : Type :=
| LUndefined
| LFalse
| LName (s : string).

(** Front-matter values. *)
Inductive JsValue : Type :=
| VUndefined
| VBool (b : bool)
| VNum (n : nat)
| VStr (s : string).

(** A plain object with string keys, newest binding first. *)
Definition Obj := list (string * JsValue).

(** A file record.  [layout] and [contents] are the properties the plugin
    reads by name, [data] holds every other own property.  [seen], [finished]
    and [children] are the properties stored under the three symbols that
    [renderNestedLayouts] creates. *)
Record File : Type := mkFile {
  layout : JsLayout;
  contents : string;
  data : Obj;
  seen : bool;
  finished : bool;
  children : option (list string)
}.

(** A mapping from names to records in key order ([files], [collection]). *)
Definition Files := list (string * File).

Inductive Error : Type :=
| InvalidPattern
| NoFilesToProcess
| CircularDependency (name : string)
| CannotFindLayout (name : string)
| TypeError (what : string)
| EngineError (msg : string).

(** Result of a computation that may throw; [OutOfFuel] stands for a
    recursion or loop that was cut off by the model's fuel. *)
Inductive Res (A : Type) : Type :=
| Ok (a : A)
| Throw (e : Error)
| OutOfFuel.
Arguments Ok {A} a.
Arguments Throw {A} e.
Arguments OutOfFuel {A}.

Definition bind {A B : Type} (r : Res A) (k : A -> Res B) : Res B :=
  match r with
  | Ok a => k a
  | Throw e => Throw e
  | OutOfFuel => OutOfFuel
  end.

Notation "x <- c1 ;; c2" := (bind c1 (fun x => c2))
  (at level 61, c1 at next level, right associativity).

(** The [pattern] option: a string, an array of any values, or something
    else. *)
Inductive PatternOpt : Type :=
| PString (s : string)
| PArray (l : list JsValue)
| POther.

Record Settings : Type := mkSettings {
  s_pattern : PatternOpt;
  s_directory : string;
  s_default : JsLayout;
  s_engineOptions : Obj
}.

(** A jstransformer: [render(template, engineOptions, locals).body], or the
    error it throws. *)
Definition Transformer := string -> Obj -> Obj -> Error + string.

(** A member inherited from [Object.prototype] where a jstransformer is
    expected: calling its [render] is a type error. *)
Definition inherited_member : Transformer :=
  fun _ _ _ => inl (TypeError "render").

(** What a pass lets the outside see, in order. *)
Inductive Event : Type :=
| EvRender (filename : string)
| EvDone (err : option Error).

(** ** Objects

    [get] is the lookup of an own property: names that a JavaScript object
    inherits from its prototype, such as [constructor], are not names of
    files here.  The list of a mapping is in the order of [Object.keys]. *)

Fixpoint get {A : Type} (o : list (string * A)) (k : string) : option A :=
  match o with
  | [] => None
  | (k', v) :: rest => if String.eqb k k' then Some v else get rest k
  end.

Definition keys {A : Type} (o : list (string * A)) : list string := map fst o.

(** In-place change of the record stored under [k]. *)
Fixpoint update (c : Files) (k : string) (g : File -> File) : Files :=
  match c with
  | [] => []
  | (k', f) :: rest =>
      if String.eqb k k' then (k', g f) :: rest else (k', f) :: update rest k g
  end.

(** The names every plain object inherits from [Object.prototype]. *)
Definition prototype_names : list string :=
  ["constructor"; "toString"; "toLocaleString"; "valueOf"; "hasOwnProperty";
   "isPrototypeOf"; "propertyIsEnumerable"; "__proto__"; "__defineGetter__";
   "__defineSetter__"; "__lookupGetter__"; "__lookupSetter__"].

Definition is_prototype_name (s : string) : bool :=
  existsb (String.eqb s) prototype_names.

(** [Object.assign(target, source)]: bindings of the source win. *)
Definition assign (target source : Obj) : Obj := source ++ target.

(** JavaScript truthiness of a [layout] value: a non-empty name. *)
Definition truthy (l : JsLayout) : option string :=
  match l with
  | LName s => if String.eqb s "" then None else Some s
  | _ => None
  end.

(** Own enumerable string-keyed properties of a record. *)
Definition props (f : File) : Obj :=
  match layout f with
  | LUndefined => []
  | LFalse => [("layout", VBool false)]
  | LName s => [("layout", VStr s)]
  end ++ ("contents", VStr (contents f)) :: data f.

(** ** Strings *)

(** [s.split(sep)] for a one-character separator. *)
Fixpoint split_on (sep : ascii) (s : string) : list string :=
  match s with
  | EmptyString => [EmptyString]
  | String c r =>
      if Ascii.eqb c sep then EmptyString :: split_on sep r
      else match split_on sep r with
           | h :: t => String c h :: t
           | [] => [String c EmptyString]
           end
  end.

(** [s.includes('.')] *)
Fixpoint includes_dot (s : string) : bool :=
  match s with
  | EmptyString => false
  | String c r => Ascii.eqb c "."%char || includes_dot r
  end.

(** [s.split('.').pop()] *)
Definition extension (s : string) : string :=
  last (split_on "."%char s) EmptyString.

(** [path.parse(name).base] of a normalised relative path. *)
Definition basename (s : string) : string :=
  last (split_on "/"%char s) EmptyString.

(** [path.join(prefix, rest)] for a normalised relative [prefix]. *)
Definition path_join (prefix rest : string) : string :=
  if String.eqb prefix "" then rest else (prefix ++ "/" ++ rest)%string.

(** [s.startsWith(p)] *)
Definition startsWith (p s : string) : bool := String.prefix p s.

(** ** Record updates used by the tree builder and the renderer *)

Definition set_seen (b : bool) (f : File) : File :=
  mkFile (layout f) (contents f) (data f) b (finished f) (children f).
Definition set_finished (b : bool) (f : File) : File :=
  mkFile (layout f) (contents f) (data f) (seen f) b (children f).
Definition set_children (ch : option (list string)) (f : File) : File :=
  mkFile (layout f) (contents f) (data f) (seen f) (finished f) ch.
Definition set_contents (s : string) (f : File) : File :=
  mkFile (layout f) s (data f) (seen f) (finished f) (children f).
Definition delete_layout (f : File) : File :=
  mkFile LUndefined (contents f) (data f) (seen f) (finished f) (children f).

(** [parent[children].push(name)], or [parent[children] = [name]]. *)
Definition push_child (name : string) (f : File) : File :=
  match children f with
  | Some l => set_children (Some (l ++ [name])) f
  | None => set_children (Some [name]) f
  end.

(** The three symbols are created by the call, so no record carries a
    property under them when the call starts. *)
Definition without_symbols (f : File) : File :=
  mkFile (layout f) (contents f) (data f) false false None.

Definition new_symbols (c : Files) : Files :=
  map (fun kf => (fst kf, without_symbols (snd kf))) c.

(** ** Dependency tree builder (nested variant) *)

Record TreeState : Type := mkTree {
  coll : Files;
  roots : list string
}.

Definition on_coll (g : Files -> Files) (st : TreeState) : TreeState :=
  mkTree (g (coll st)) (roots st).

(** [file[finished] = true; delete file[seen]] *)
Definition finish (name : string) (c : Files) : Files :=
  update (update c name (set_finished true)) name (set_seen false).

(** [createLayoutTree(name)].  The recursion follows [file.layout]; the
    record [parent] is a reference, so its [children] are read in the state
    left by the recursive call.  The second test of [file[finished]] in the
    source comes after the first one has failed and always succeeds. *)
Fixpoint createLayoutTree (fuel : nat) (name : string) (st : TreeState)
  : Res TreeState :=
  match fuel with
  | O => OutOfFuel
  | S fuel' =>
      match get (coll st) name with
      | None => Ok st
      | Some file =>
          if finished file then Ok st
          else if seen file then Throw (CircularDependency name)
          else
            let st1 := on_coll (fun c => update c name (set_seen true)) st in
            st3 <- match truthy (layout file) with
                   | Some parentname =>
                       st2 <- createLayoutTree fuel' parentname st1 ;;
                       match get (coll st2) parentname with
                       | None => Throw (TypeError parentname)
                       | Some _ =>
                           Ok (on_coll (fun c => update c parentname
                                                   (push_child name)) st2)
                       end
                   | None => Ok (mkTree (coll st1) (roots st1 ++ [name]))
                   end ;;
            Ok (on_coll (finish name) st3)
      end
  end.

(** [Object.keys(collection).forEach(createLayoutTree)] *)
Fixpoint forEachTree (fuel : nat) (names : list string) (st : TreeState)
  : Res TreeState :=
  match names with
  | [] => Ok st
  | n :: rest =>
      st' <- createLayoutTree fuel n st ;; forEachTree fuel rest st'
  end.

Definition buildTree (c : Files) : Res TreeState :=
  forEachTree (S (length c)) (keys c) (mkTree c []).

(** The strings of an array, when all its elements are strings. *)
Fixpoint strings_of (l : list JsValue) : option (list string) :=
  match l with
  | [] => Some []
  | VStr s :: rest =>
      match strings_of rest with
      | Some ss => Some (s :: ss)
      | None => None
      end
  | _ :: _ => None
  end.

(** The value of a decimal digit. *)
Definition digit (c : ascii) : option N :=
  let n := N_of_ascii c in
  if (N.leb 48 n && N.leb n 57)%bool then Some (n - 48)%N else None.

Fixpoint parse_digits (s : string) (acc : N) : option N :=
  match s with
  | EmptyString => Some acc
  | String c r =>
      match digit c with
      | Some d => parse_digits r (acc * 10 + d)%N
      | None => None
      end
  end.

(** A property name that is an array index: the decimal form, without
    leading zeros, of an integer up to 2^32 - 2. *)
Definition array_index (s : string) : option N :=
  match s with
  | EmptyString => None
  | String c r =>
      if (Ascii.eqb c "0"%char && negb (String.eqb r ""))%bool then None
      else match parse_digits s 0%N with
           | Some n => if N.leb n 4294967294 then Some n else None
           | None => None
           end
  end.

(** A new key that is an array index goes before the first key that is no
    smaller index. *)
Fixpoint insert_index (c : Files) (i : N) (k : string) (f : File) : Files :=
  match c with
  | [] => [(k, f)]
  | (k', f') :: rest =>
      match array_index k' with
      | Some j =>
          if N.ltb j i then (k', f') :: insert_index rest i k f
          else (k, f) :: c
      | None => (k, f) :: c
      end
  end.

(** [matchedFiles[base] = file]: an existing key keeps its place; a new key
    goes to the end, unless it is an array index: [Object.keys] lists those
    first, in ascending order. *)
Definition set_key (c : Files) (k : string) (f : File) : Files :=
  match get c k with
  | Some _ => update c k (fun _ => f)
  | None =>
      match array_index k with
      | Some i => insert_index c i k f
      | None => c ++ [(k, f)]
      end
  end.

(** The host: [metalsmith.metadata()], the path of the layout directory
    relative to [metalsmith.source()], and the records a separate Metalsmith
    instance reads from a directory. *)
Record Metalsmith : Type := mkMetalsmith {
  ms_metadata : Obj;
  ms_relative : string -> string;
  ms_process : string -> Files
}.

(** The caller's options; [None] leaves the default in place. *)
Record Options : Type := mkOptions {
  o_pattern : option PatternOpt;
  o_directory : option string;
  o_default : JsLayout;
  o_engineOptions : option Obj
}.

(** [Object.assign({}, defaults, options)] *)
Definition mergeSettings (o : Options) : Settings :=
  mkSettings
    (match o_pattern o with Some p => p | None => PString "**" end)
    (match o_directory o with Some d => d | None => "layouts" end)
    (o_default o)
    (match o_engineOptions o with Some e => e | None => [] end).

(** What one call of the plugin does: the renders started and the calls of
    [done] in order, the error thrown out of the plugin function itself, and
    the rejections nobody handles. *)
Record Pass : Type := mkPass {
  events : list Event;
  thrown : option Error;
  unhandled : list Error;
  out_collection : option Files
}.

(** The schedule built by [renderLayouts(parentlevel)]: one [tasks.then] per
    parent that has children, in the order the calls are made. *)
Fixpoint forEachParent (rec : list string -> Res (list (list string)))
  (c : Files) (parentlevel : list string) : Res (list (list string)) :=
  match parentlevel with
  | [] => Ok []
  | parent :: rest =>
      match get c parent with
      | None => Throw (TypeError parent)
      | Some f =>
          match children f with
          | Some childlevel =>
              below <- rec childlevel ;;
              after <- forEachParent rec c rest ;;
              Ok (childlevel :: below ++ after)
          | None => forEachParent rec c rest
          end
      end
  end.

Fixpoint renderLayouts (fuel : nat) (c : Files) (parentlevel : list string)
  : Res (list (list string)) :=
  match fuel with
  | O => OutOfFuel
  | S fuel' => forEachParent (renderLayouts fuel' c) c parentlevel
  end.

(** The clean-up step of [renderNestedLayouts]. *)
Definition cleanup (c : Files) : Files :=
  map (fun kf => (fst kf,
                  delete_layout (set_finished false (set_children None (snd kf)))))
      c.

Definition first_error (old : option Error) (e : Error) : option Error :=
  match old with
  | Some e0 => Some e0
  | None => Some e
  end.

Section Plugin.

(** External collaborators: [inputformat-to-jstransformer] wrapped by
    [jstransformer], [is-utf8] and [multimatch]; [multimatch_any] is
    [multimatch] on a list of patterns that are not all strings. *)
Variable toTransformer : string -> option Transformer.
Variable isUtf8 : string -> bool.
Variable multimatch : list string -> list string -> list string.
Variable multimatch_any : list string -> list JsValue -> Res (list string).

(** [match(names, pattern)] *)
Definition matchFiles (names : list string) (pattern : list JsValue)
  : Res (list string) :=
  match strings_of pattern with
  | Some pat => Ok (multimatch names pat)
  | None => multimatch_any names pattern
  end.

(** [getTransformer(ext)]; the cache stores what [toTransformer] gave, so a
    lookup has the value of the first call.  The cache is a plain object:
    for a name inherited from [Object.prototype] the test [ext in cache]
    holds and the inherited member is returned, which is truthy and has no
    [render]. *)
Definition getTransformer (ext : string) : option Transformer :=
  if is_prototype_name ext then Some inherited_member else toTransformer ext.

Definition getLayout (file : File) (settings : Settings) : JsLayout :=
  match layout file with
  | LFalse => LFalse
  | LName s => if String.eqb s "" then s_default settings else LName s
  | LUndefined => s_default settings
  end.

(** [validate] on the record itself; [true] stands for the transformer it
    returns. *)
Definition validateFile (file : File) (settings : Settings) : bool :=
  match getLayout file settings with
  | LName l =>
      if String.eqb l "" then false
      else if negb (includes_dot l) then false
      else if negb (isUtf8 (contents file)) then false
      else match getTransformer (extension l) with
           | Some _ => true
           | None => false
           end
  | _ => false
  end.

Definition validate (filename : string) (files : Files) (settings : Settings)
  : Res bool :=
  match get files filename with
  | None => Throw (TypeError filename)
  | Some file => Ok (validateFile file settings)
  end.

(** [matchedFiles.filter(filename => validate(...))] *)
Fixpoint filterValid (names : list string) (files : Files)
  (settings : Settings) : Res (list string) :=
  match names with
  | [] => Ok []
  | n :: rest =>
      b <- validate n files settings ;;
      l <- filterValid rest files settings ;;
      Ok (if b then n :: l else l)
  end.

(** *** Nested variant *)

(** [Object.assign({}, metadata, file, { contents })] *)
Definition locals_nested (metadata : Obj) (file : File) : Obj :=
  assign (assign (assign [] metadata) (props file))
         [("contents", VStr (contents file))].

(** [render] of the nested variant: the new contents of [files[filename]],
    or the error that rejects the promise. *)
Definition render (filename : string) (files collection : Files)
  (metadata : Obj) (settings : Settings) : Error + string :=
  match get files filename with
  | None => inl (TypeError filename)
  | Some file =>
      match getLayout file settings with
      | LName layoutname =>
          let transform := getTransformer (extension layoutname) in
          let locals := locals_nested metadata file in
          match get collection layoutname with
          | None => inl (CannotFindLayout layoutname)
          | Some layout =>
              match transform with
              | None => inl (TypeError "render")
              | Some t => t (contents layout) (s_engineOptions settings) locals
              end
          end
      | _ => inl (TypeError "split")
      end
  end.

(** [Promise.all(childlevel.map(child => render({ filename: child, files:
    collection, collection, ... })))]: every child of the level is rendered,
    the first rejection is the one reported. *)
Fixpoint renderLevel (childlevel : list string) (c : Files) (metadata : Obj)
  (settings : Settings) (err : option Error) : Files * option Error :=
  match childlevel with
  | [] => (c, err)
  | child :: rest =>
      match render child c c metadata settings with
      | inr body =>
          renderLevel rest (update c child (set_contents body))
                      metadata settings err
      | inl e => renderLevel rest c metadata settings (first_error err e)
      end
  end.

(** The chain [tasks]: a level runs when the one before it has resolved. *)
Fixpoint runTasks (levels : list (list string)) (c : Files) (metadata : Obj)
  (settings : Settings) : list Event * Files * option Error :=
  match levels with
  | [] => ([], c, None)
  | level :: rest =>
      match renderLevel level c metadata settings None with
      | (c', Some e) => (map EvRender level, c', Some e)
      | (c', None) =>
          match runTasks rest c' metadata settings with
          | (evs, c'', err) => (map EvRender level ++ evs, c'', err)
          end
      end
  end.

Definition renderNestedLayouts (collection : Files) (metadata : Obj)
  (settings : Settings) : list Event * Res Files :=
  match buildTree (new_symbols collection) with
  | Ok st =>
      match renderLayouts (S (length collection)) (coll st) (roots st) with
      | Ok levels =>
          match runTasks levels (coll st) metadata settings with
          | (evs, c, Some e) => (evs, Throw e)
          | (evs, c, None) => (evs, Ok (cleanup c))
          end
      | Throw e => ([], Throw e)
      | OutOfFuel => ([], OutOfFuel)
      end
  | Throw e => ([], Throw e)
  | OutOfFuel => ([], OutOfFuel)
  end.

(** [setLayoutsPrefix]; [old] is the value the module variable has when the
    pass starts.  The nested variant keeps it when the layout directory lies
    outside the source, the chain variant resets it. *)
Definition setLayoutsPrefix (keep : bool) (old : string) (ms : Metalsmith)
  (settings : Settings) : string :=
  let relativePath := ms_relative ms (s_directory settings) in
  if negb (startsWith "../" relativePath) then relativePath
  else if keep then old else "".

(** The loop of [getCollection] over the matched names.  An assignment to
    [__proto__] makes no key (it replaces the prototype of the object; the
    lookups that then reach the file's own properties are not modelled). *)
Fixpoint rekey (names : list string) (files : Files) (acc : Files) : Files :=
  match names with
  | [] => acc
  | name :: rest =>
      match get files name with
      | Some f =>
          if String.eqb (basename name) "__proto__" then rekey rest files acc
          else rekey rest files (set_key acc (basename name) f)
      | None => rekey rest files acc
      end
  end.

Definition getCollection (layoutsPrefix : string) (files : Files)
  (ms : Metalsmith) (settings : Settings) : Files :=
  if negb (String.eqb layoutsPrefix "") then
    rekey (multimatch (keys files) [path_join layoutsPrefix "**/*"]) files []
  else ms_process ms (s_directory settings).

(** [Promise.all(validFiles.map(filename => render({ filename, files,
    collection, ... })))] *)
Fixpoint renderContents (validFiles : list string) (files collection : Files)
  (metadata : Obj) (settings : Settings) (err : option Error)
  : Files * option Error :=
  match validFiles with
  | [] => (files, err)
  | filename :: rest =>
      match render filename files collection metadata settings with
      | inr body =>
          renderContents rest (update files filename (set_contents body))
                         collection metadata settings err
      | inl e =>
          renderContents rest files collection metadata settings
                         (first_error err e)
      end
  end.

Definition opt_list {A : Type} (o : option A) : list A :=
  match o with
  | Some a => [a]
  | None => []
  end.

(** The plugin of the nested variant. *)
Definition plugin (options : Options) (old_prefix : string) (files : Files)
  (ms : Metalsmith) : Pass :=
  let metadata := ms_metadata ms in
  let settings := mergeSettings options in
  let '(pattern, ev1) :=
    match s_pattern settings with
    | PString s => (Some [VStr s], [])
    | PArray l => (Some l, [])
    | POther => (None, [EvDone (Some InvalidPattern)])
    end in
  let layoutsPrefix := setLayoutsPrefix true old_prefix ms settings in
  match pattern with
  | None => mkPass ev1 (Some (TypeError "push")) [] None
  | Some pat =>
      let pat' := pat ++ [VStr ("!" ++ path_join layoutsPrefix "**")] in
      match (matchedFiles <- matchFiles (keys files) pat' ;;
             filterValid matchedFiles files settings) with
      | Throw e => mkPass ev1 (Some e) [] None
      | OutOfFuel => mkPass ev1 None [] None
      | Ok validFiles =>
          let ev2 := match validFiles with
                     | [] => [EvDone (Some NoFilesToProcess)]
                     | _ => []
                     end in
          let collection := getCollection layoutsPrefix files ms settings in
          match renderNestedLayouts collection metadata settings with
          | (evs, Ok collection') =>
              let '(_, err) := renderContents validFiles files collection'
                                              metadata settings None in
              mkPass (ev1 ++ ev2 ++ evs ++ map EvRender validFiles
                          ++ [EvDone None])
                     None (opt_list err) (Some collection')
          | (evs, Throw e) =>
              mkPass (ev1 ++ ev2 ++ evs ++ [EvDone (Some e)]) None [] None
          | (evs, OutOfFuel) => mkPass (ev1 ++ ev2 ++ evs) None [] None
          end
      end
  end.

(** *** Chain variant *)

(** The [do ... while (layoutname)] loop of [render]: the layout of the file
    and all outer layouts, innermost first.  The loop has no bound of its
    own; the fuel cuts it off. *)
Fixpoint outerLayouts (fuel : nat) (collection : Files) (layoutname : string)
  : Res (list string) :=
  match fuel with
  | O => OutOfFuel
  | S fuel' =>
      match get collection layoutname with
      | None => Throw (TypeError layoutname)
      | Some l =>
          match truthy (layout l) with
          | Some next =>
              rest <- outerLayouts fuel' collection next ;;
              Ok (layoutname :: rest)
          | None => Ok [layoutname]
          end
      end
  end.

Definition props_of (collection : Files) (name : string) : Obj :=
  match get collection name with
  | Some f => props f
  | None => []
  end.

(** [locals] after the loop that runs from the last layout to the first and
    the final [Object.assign(locals, file)]. *)
Definition locals_chain (metadata : Obj) (collection : Files)
  (layouts : list string) (file : File) : Obj :=
  assign (fold_right (fun l acc => assign acc (props_of collection l))
                     (assign [] metadata) layouts)
         (props file).

(** The promise chain over [layouts]: each step renders the current contents
    into the next layout and writes the result to [file.contents].  The
    result is the text last written and the error that ended the chain. *)
Fixpoint applyLayouts (layouts : list string) (collection : Files)
  (settings : Settings) (locals : Obj) (text : string)
  : string * option Error :=
  match layouts with
  | [] => (text, None)
  | l :: rest =>
      match get collection l with
      | None => (text, Some (CannotFindLayout l))
      | Some layoutfile =>
          let locals' := assign locals [("contents", VStr text)] in
          match getTransformer (extension l) with
          | None => (text, Some (TypeError "render"))
          | Some t =>
              match t (contents layoutfile) (s_engineOptions settings) locals'
              with
              | inr body => applyLayouts rest collection settings locals' body
              | inl e => (text, Some e)
              end
          end
      end
  end.

(** [validFiles.map(filename => render(...))] of the chain variant.  The
    loop over the outer layouts runs inside [map], so what it throws ends the
    [map]; a failure inside a promise chain rejects that file's promise. *)
Fixpoint renderChains (validFiles : list string) (files collection : Files)
  (metadata : Obj) (settings : Settings)
  : list Event * Res (Files * option Error) :=
  match validFiles with
  | [] => ([], Ok (files, None))
  | filename :: rest =>
      match get files filename with
      | None => ([EvRender filename], Throw (TypeError filename))
      | Some file =>
          match match getLayout file settings with
                | LName l => outerLayouts (S (length collection)) collection l
                | _ => Throw (TypeError "layout")
                end
          with
          | Throw e => ([EvRender filename], Throw e)
          | OutOfFuel => ([EvRender filename], OutOfFuel)
          | Ok layouts =>
              let locals := locals_chain metadata collection layouts file in
              let '(text, err1) :=
                applyLayouts layouts collection settings locals
                             (contents file) in
              let files' := update files filename (set_contents text) in
              match renderChains rest files' collection metadata settings with
              | (evs, Ok (files'', err)) =>
                  (EvRender filename :: evs,
                   Ok (files'', match err1 with
                                | Some e => Some e
                                | None => err
                                end))
              | (evs, other) => (EvRender filename :: evs, other)
              end
          end
      end
  end.

(** The plugin of the chain variant.  [match(keys, undefined)] is modelled
    as a match against no pattern. *)
Definition plugin_chain (options : Options) (old_prefix : string)
  (files : Files) (ms : Metalsmith) : Pass :=
  let metadata := ms_metadata ms in
  let settings := mergeSettings options in
  let '(pattern, ev1) :=
    match s_pattern settings with
    | PString s => (Some [VStr s], [])
    | PArray l => (Some l, [])
    | POther => (None, [EvDone (Some InvalidPattern)])
    end in
  let layoutsPrefix := setLayoutsPrefix false old_prefix ms settings in
  match (if negb (String.eqb layoutsPrefix "") then
           match pattern with
           | Some pat =>
               Ok (pat ++ [VStr ("!" ++ path_join layoutsPrefix "**")])
           | None => Throw (TypeError "push")
           end
         else Ok (match pattern with Some pat => pat | None => [] end))
  with
  | Throw e => mkPass ev1 (Some e) [] None
  | OutOfFuel => mkPass ev1 None [] None
  | Ok pat' =>
      match (matchedFiles <- matchFiles (keys files) pat' ;;
             filterValid matchedFiles files settings) with
      | Throw e => mkPass ev1 (Some e) [] None
      | OutOfFuel => mkPass ev1 None [] None
      | Ok [] => mkPass (ev1 ++ [EvDone (Some NoFilesToProcess)]) None [] None
      | Ok validFiles =>
          let collection := getCollection layoutsPrefix files ms settings in
          match renderChains validFiles files collection metadata settings with
          | (evs, Ok (_, None)) =>
              mkPass (ev1 ++ evs ++ [EvDone None]) None [] (Some collection)
          | (evs, Ok (_, Some e)) =>
              mkPass (ev1 ++ evs ++ [EvDone (Some e)]) None [] None
          | (evs, Throw e) =>
              mkPass (ev1 ++ evs ++ [EvDone (Some e)]) None [] None
          | (evs, OutOfFuel) => mkPass (ev1 ++ evs) None [] None
          end
      end
  end.

End Plugin.

(** ** The parent relation of a layout collection *)

(** The parent a layout names: its [layout] property when truthy. *)
Definition parentOf (c : Files) (n : string) : option string :=
  match get c n with
  | Some f => truthy (layout f)
  | None => None
  end.

(** The [k]-th ancestor of [n]. *)
Fixpoint ancestor (c : Files) (k : nat) (n : string) : option string :=
  match k with
  | O => Some n
  | S k' =>
      match parentOf c n with
      | Some p => ancestor c k' p
      | None => None
      end
  end.

(** [n] lies on a cycle of length [k + 1]. *)
Definition on_cycle (c : Files) (n : string) : Prop :=
  exists k, ancestor c (S k) n = Some n.


Definition acyclic (c : Files) : Prop := forall n, ~ on_cycle c n.

(** Every parent that is named is an entry of the collection. *)
Definition resolved (c : Files) : Prop :=
  forall n p, parentOf c n = Some p -> get c p <> None.

(** [n] names the parent [p], and [p] is no entry of the collection. *)
Definition dangling (c : Files) (n p : string) : Prop :=
  parentOf c n = Some p /\ get c p = None.

(** [n] is an entry whose chain of parents ends in a parentless entry. *)
Inductive Rooted (c : Files) : string -> Prop :=
| Rooted_root : forall n,
    get c n <> None -> parentOf c n = None -> Rooted c n
| Rooted_child : forall n p,
    parentOf c n = Some p -> Rooted c p -> Rooted c n.

(** [x] occurs in [l] before an occurrence of [y]. *)
Definition before {A : Type} (x y : A) (l : list A) : Prop :=
  exists l1 l2, l = l1 ++ y :: l2 /\ In x l1.



(** The [pattern] option is a string or an array of strings. *)
Definition string_or_strings (p : PatternOpt) : bool :=
  match p with
  | PString _ => true
  | PArray l => match strings_of l with
                | Some _ => true
                | None => false
                end
  | POther => false
  end.

(** Decision procedures for concrete collections. *)
Fixpoint endsb (c : Files) (fuel : nat) (n : string) : bool :=
  match fuel with
  | O => false
  | S fuel' =>
      match parentOf c n with
      | Some p => endsb c fuel' p
      | None => true
      end
  end.

Definition acyclicb (c : Files) : bool :=
  forallb (endsb c (S (length c))) (keys c).

Definition resolvedb (c : Files) : bool :=
  forallb (fun n => match parentOf c n with
                    | Some p => match get c p with
                                | Some _ => true
                                | None => false
                                end
                    | None => true
                    end) (keys c).

(** Length of the chain of parents above [n]: its level in the forest. *)
Fixpoint depth (c : Files) (fuel : nat) (n : string) : nat :=
  match fuel with
  | O => O
  | S fuel' =>
      match parentOf c n with
      | Some p => S (depth c fuel' p)
      | None => O
      end
  end.

(** The levels of the renders in a trace never go down. *)
Fixpoint level_ordered (c : Files) (trace : list string) : bool :=
  match trace with
  | [] => true
  | x :: rest =>
      forallb (fun y => Nat.leb (depth c (length c) x) (depth c (length c) y)) rest
      && level_ordered c rest
  end.

Definition rendered (evs : list Event) : list string :=
  flat_map (fun e => match e with
                     | EvRender n => [n]
                     | EvDone _ => []
                     end) evs.

Definition dones (evs : list Event) : list (option Error) :=
  flat_map (fun e => match e with
                     | EvRender _ => []
                     | EvDone r => [r]
                     end) evs.

(** ** The merged context in the words of the specification *)

(** Overlaying an object on a context: its bindings win. *)
Definition overlay (lower : string -> option JsValue) (upper : Obj)
  : string -> option JsValue :=
  fun k => match get upper k with
           | Some v => Some v
           | None => lower k
           end.

(** Start from the shared metadata, overlay the ancestors oldest first, then
    the record's own data, then attach the current text under [contents]. *)
Definition spec_context (metadata : Obj) (ancestors_oldest_first : list Obj)
  (own : Obj) (text : string) : string -> option JsValue :=
  overlay (overlay (fold_left overlay ancestors_oldest_first (get metadata))
                   own)
          [("contents", VStr text)].

(** ** Stand-ins for the external collaborators, used in the examples *)

(** An engine for the extension [hbs] that wraps the contents it is given in
    the template. *)
Definition demo_engine : Transformer :=
  fun template _ locals =>
    match get locals "contents" with
    | Some (VStr body) => inr (template ++ "(" ++ body ++ ")")%string
    | _ => inr template
    end.

Definition demo_toTransformer (ext : string) : option Transformer :=
  if String.eqb ext "hbs" then Some demo_engine else None.

Definition demo_isUtf8 (buffer : string) : bool := true.

(** Globs of the three shapes the plugin itself builds, and literal names. *)
Definition demo_glob (pat name : string) : bool :=
  if String.eqb pat "**" then true
  else match split_on "/"%char pat with
       | [d; "**"] => String.prefix (d ++ "/") name
       | [d; "**"; "*"] => String.prefix (d ++ "/") name
       | _ => String.eqb pat name
       end.

(** [multimatch]: a pattern adds its matches, a pattern with [!] removes
    them. *)
Definition demo_multimatch (names patterns : list string) : list string :=
  fold_left (fun ret pat =>
               match pat with
               | String "!"%char neg => filter (fun n => negb (demo_glob neg n)) ret
               | _ => ret ++ filter (fun n => demo_glob pat n
                                      && negb (existsb (String.eqb n) ret)) names
               end) patterns [].

(** [multimatch] on patterns that are not all strings: the matcher refuses
    them as soon as there is a name to match. *)
Definition demo_multimatch_any (names : list string) (patterns : list JsValue)
  : Res (list string) :=
  match names with
  | [] => Ok []
  | _ => Throw (TypeError "glob pattern string required")
  end.

Definition plain (l : JsLayout) (text : string) (d : Obj) : File :=
  mkFile l text d false false None.

(** A host whose layout directory [layouts] lies inside the source. *)
Definition demo_host (metadata : Obj) : Metalsmith :=
  mkMetalsmith metadata (fun d => d) (fun _ => []).

Definition demo_options : Options := mkOptions None None LUndefined None.

(** Two trees: [r1 <- a <- b] and [r2 <- c]. *)
Definition two_trees : Files :=
  [("r1.hbs", plain LUndefined "R1" []);
   ("r2.hbs", plain LUndefined "R2" []);
   ("a.hbs", plain (LName "r1.hbs") "A" []);
   ("b.hbs", plain (LName "a.hbs") "B" []);
   ("c.hbs", plain (LName "r2.hbs") "C" [])].





(** Layouts inside the source and no content file. *)
Definition layouts_only : Files :=
  [("layouts/base.hbs", plain LUndefined "BASE" []);
   ("layouts/page.hbs", plain (LName "base.hbs") "PAGE" [])].

(** A content file whose layout is not in the layout directory. *)
Definition missing_layout : Files :=
  [("index.md", plain (LName "missing.hbs") "hello" []);
   ("layouts/base.hbs", plain LUndefined "BASE" [])].

(** A small site: a content file, a layout and its parent. *)
Definition site : Files :=
  [("index.md", plain (LName "page.hbs") "hello" []);
   ("layouts/base.hbs", plain LUndefined "BASE" []);
   ("layouts/page.hbs", plain (LName "base.hbs") "PAGE" [])].

(** One content file; the layouts live outside the source. *)
Definition one_page : Files :=
  [("index.md", plain (LName "base.hbs") "hello" [])].

(** A host whose layout directory lies next to the source: its path
    relative to the source starts with [../], and a separate instance reads
    one layout from it. *)
Definition outside_host : Metalsmith :=
  mkMetalsmith [] (fun d => ("../" ++ d)%string)
               (fun _ => [("base.hbs", plain LUndefined "BASE" [])]).

(** The example of the specification for the merged context. *)
Definition spec_metadata : Obj := [("a", VNum 1)].
Definition spec_layout : File :=
  plain LUndefined "LAYOUT" [("a", VNum 2); ("b", VNum 2)].
Definition spec_content : File :=
  plain (LName "base.hbs") "CONTENT" [("a", VNum 3)].
Definition spec_collection : Files := [("base.hbs", spec_layout)].

(** ** Views of a collection used by the invariants *)

(** What the tree builder and the renderer leave alone. *)
Definition shape (c : Files) : list (string * (JsLayout * Obj)) :=
  map (fun kf => (fst kf, (layout (snd kf), data (snd kf)))) c.

Definition dataOf (c : Files) : list (string * Obj) :=
  map (fun kf => (fst kf, data (snd kf))) c.

Definition seenIn (c : Files) (n : string) : bool :=
  match get c n with
  | Some f => seen f
  | None => false
  end.

Definition finishedIn (c : Files) (n : string) : bool :=
  match get c n with
  | Some f => finished f
  | None => false
  end.

Definition childrenOf (c : Files) (n : string) : option (list string) :=
  match get c n with
  | Some f => children f
  | None => None
  end.

Definition childList (c : Files) (n : string) : list string :=
  match childrenOf c n with
  | Some l => l
  | None => []
  end.

(** Entries that are neither being visited nor finished. *)
Definition white (c : Files) : nat :=
  length (filter (fun kf => negb (seen (snd kf)) && negb (finished (snd kf))) c).

(** The invariant of the tree builder over the collection [c0] it started
    from: the finished entries are exactly the ones placed, each once, as a
    root or as a child of its parent. *)
Record Inv (c0 : Files) (st : TreeState) : Prop := mkInv {
  inv_shape : shape (coll st) = shape c0;
  inv_children : forall p x,
    In x (childList (coll st) p) <->
    finishedIn (coll st) x = true /\ parentOf c0 x = Some p;
  inv_children_nodup : forall p, NoDup (childList (coll st) p);
  inv_children_nonempty : forall p, childrenOf (coll st) p <> Some [];
  inv_roots : forall x,
    In x (roots st) <->
    finishedIn (coll st) x = true /\ parentOf c0 x = None;
  inv_roots_nodup : NoDup (roots st);
  inv_rooted : forall x, finishedIn (coll st) x = true -> Rooted c0 x
}.

(** The nodes [n], its parent, ..., its [k]-th ancestor. *)
Fixpoint chain (c : Files) (k : nat) (n : string) : list string :=
  match k with
  | O => [n]
  | S k' =>
      match parentOf c n with
      | Some p => n :: chain c k' p
      | None => [n]
      end
  end.

(** The forest a finished tree builder leaves: children lists and roots
    mirror the parent relation of the collection [c0]. *)
Record Forest (c0 c : Files) (rts : list string) : Prop := mkForest {
  fo_children : forall p x, In x (childList c p) <-> parentOf c0 x = Some p;
  fo_children_nodup : forall p, NoDup (childList c p);
  fo_children_nonempty : forall p, childrenOf c p <> Some [];
  fo_roots : forall x, In x rts <-> get c0 x <> None /\ parentOf c0 x = None;
  fo_roots_nodup : NoDup rts;
  fo_get : forall x, get c x = None <-> get c0 x = None;
  fo_acyclic : acyclic c0
}.

(** No member of the level is an ancestor of another one. *)
Definition incomparable (c0 : Files) (level : list string) : Prop :=
  forall p q k, In p level -> In q level -> ancestor c0 k p = Some q -> p = q.

(** [T] lists the proper descendants of the layouts of [level], each after
    its parent, each once. *)
Definition Sched (c0 : Files) (level T : list string) : Prop :=
  (forall x, In x T <->
             exists p k, In p level /\ ancestor c0 (S k) x = Some p)
  /\ (forall x q, In x T -> parentOf c0 x = Some q ->
                  In q level \/ before q x T)
  /\ (NoDup level -> incomparable c0 level -> NoDup T).

(** ** Lemmas on objects *)

Lemma get_update (c : Files) (k n : string) (g : File -> File) :
  get (update c k g) n =
  if String.eqb n k then option_map g (get c k) else get c n.
Proof.
  induction c as [|[k' f] c IH]; simpl.
  - destruct (String.eqb n k); reflexivity.
  - destruct (String.eqb_spec k k') as [Hk|Hk];
      destruct (String.eqb_spec n k) as [Hn|Hn]; subst; simpl;
      rewrite ?String.eqb_refl; try reflexivity.
    + destruct (String.eqb_spec n k'); [contradiction|reflexivity].
    + destruct (String.eqb_spec k k'); [contradiction|].
      rewrite IH, ?String.eqb_refl. reflexivity.
    + destruct (String.eqb_spec n k'); [reflexivity|].
      rewrite IH. destruct (String.eqb_spec n k); [contradiction|reflexivity].
Qed.

Lemma get_map_snd {A B : Type} (h : A -> B) (c : list (string * A)) (n : string) :
  get (map (fun kf => (fst kf, h (snd kf))) c) n = option_map h (get c n).
Proof.
  induction c as [|[k f] c IH]; simpl; [reflexivity|].
  destruct (String.eqb n k); [reflexivity|exact IH].
Qed.

Lemma get_in_keys {A : Type} (c : list (string * A)) (n : string) :
  get c n <> None <-> In n (keys c).
Proof.
  induction c as [|[k f] c IH]; simpl.
  - split; [congruence|tauto].
  - destruct (String.eqb_spec n k) as [->|Hn].
    + split; [auto|discriminate].
    + rewrite IH. split; [auto|]. intros [E|H]; [congruence|exact H].
Qed.

Lemma shape_update (c : Files) (k : string) (g : File -> File) :
  (forall f, layout (g f) = layout f /\ data (g f) = data f) ->
  shape (update c k g) = shape c.
Proof.
  intros Hg. induction c as [|[k' f] c IH]; simpl; [reflexivity|].
  destruct (String.eqb k k'); simpl.
  - destruct (Hg f) as [-> ->]. reflexivity.
  - f_equal. exact IH.
Qed.

Lemma shape_get (c c' : Files) (n : string) :
  shape c = shape c' ->
  option_map (fun f => (layout f, data f)) (get c n) =
  option_map (fun f => (layout f, data f)) (get c' n).
Proof.
  intros H. unfold shape in H.
  rewrite <- (get_map_snd (fun f => (layout f, data f)) c n).
  rewrite <- (get_map_snd (fun f => (layout f, data f)) c' n).
  rewrite H. reflexivity.
Qed.

Lemma shape_get_none (c c' : Files) (n : string) :
  shape c = shape c' -> get c n = None -> get c' n = None.
Proof.
  intros H G. pose proof (shape_get c c' n H) as E. rewrite G in E.
  destruct (get c' n); [discriminate|reflexivity].
Qed.

Lemma shape_parentOf (c c' : Files) (n : string) :
  shape c = shape c' -> parentOf c n = parentOf c' n.
Proof.
  intros H. pose proof (shape_get c c' n H) as E. unfold parentOf.
  destruct (get c n), (get c' n); simpl in E; try discriminate; [|reflexivity].
  injection E as E _. rewrite E. reflexivity.
Qed.

Lemma shape_length (c c' : Files) : shape c = shape c' -> length c = length c'.
Proof.
  intros H. apply (f_equal (@length _)) in H. unfold shape in H.
  rewrite !length_map in H. exact H.
Qed.

Lemma shape_keys (c c' : Files) : shape c = shape c' -> keys c = keys c'.
Proof.
  intros H. apply (f_equal (map fst)) in H. unfold shape in H.
  rewrite !map_map in H. exact H.
Qed.

Lemma shape_new_symbols (c : Files) : shape (new_symbols c) = shape c.
Proof.
  unfold shape, new_symbols. rewrite map_map. reflexivity.
Qed.

(** ** The tree builder keeps its invariant *)


Lemma Inv_init (c : Files) : Inv c (mkTree (new_symbols c) []).
Proof.
  assert (G : forall n, get (new_symbols c) n =
            option_map without_symbols (get c n)).
  { intros n. unfold new_symbols. apply (get_map_snd without_symbols). }
  assert (F : forall x, finishedIn (new_symbols c) x = false).
  { intros x. unfold finishedIn. rewrite G. destruct (get c x); reflexivity. }
  assert (C : forall x, childrenOf (new_symbols c) x = None).
  { intros x. unfold childrenOf. rewrite G. destruct (get c x); reflexivity. }
  constructor; simpl.
  - apply shape_new_symbols.
  - intros p x. unfold childList. rewrite C, F. simpl. split; [tauto|].
    intros [H _]. discriminate.
  - intros p. unfold childList. rewrite C. constructor.
  - intros p. rewrite C. discriminate.
  - intros x. rewrite F. simpl. split; [tauto|]. intros [H _]. discriminate.
  - constructor.
  - intros x. rewrite F. discriminate.
Qed.

Lemma seenIn_new_symbols (c : Files) (x : string) :
  seenIn (new_symbols c) x = false.
Proof.
  unfold seenIn, new_symbols.
  rewrite (get_map_snd without_symbols).
  destruct (get c x); reflexivity.
Qed.

(** Marking an entry as being visited changes no other view. *)
Lemma Inv_mark_seen (c0 : Files) (st : TreeState) (n : string) :
  Inv c0 st ->
  Inv c0 (on_coll (fun c => update c n (set_seen true)) st).
Proof.
  intros I.
  assert (F : forall x, finishedIn (update (coll st) n (set_seen true)) x
                        = finishedIn (coll st) x).
  { intros x. unfold finishedIn. rewrite get_update.
    destruct (String.eqb_spec x n) as [->|_]; [|reflexivity].
    destruct (get (coll st) n); reflexivity. }
  assert (C : forall x, childrenOf (update (coll st) n (set_seen true)) x
                        = childrenOf (coll st) x).
  { intros x. unfold childrenOf. rewrite get_update.
    destruct (String.eqb_spec x n) as [->|_]; [|reflexivity].
    destruct (get (coll st) n); reflexivity. }
  destruct I as [I1 I2 I3 I4 I5 I6 I7].
  constructor; simpl.
  - rewrite shape_update; [exact I1|]. intros f. split; reflexivity.
  - intros p x. unfold childList. rewrite C, F. apply I2.
  - intros p. unfold childList. rewrite C. apply I3.
  - intros p. rewrite C. apply I4.
  - intros x. rewrite F. apply I5.
  - exact I6.
  - intros x. rewrite F. apply I7.
Qed.


Lemma get_finish (c : Files) (n x : string) :
  get (finish n c) x =
  if String.eqb x n
  then option_map (fun f => set_seen false (set_finished true f)) (get c n)
  else get c x.
Proof.
  unfold finish. rewrite !get_update.
  destruct (String.eqb_spec x n) as [->|_]; [|reflexivity].
  rewrite String.eqb_refl. destruct (get c n); reflexivity.
Qed.

Lemma shape_finish (c : Files) (n : string) : shape (finish n c) = shape c.
Proof.
  unfold finish. rewrite !shape_update; try reflexivity;
    intros f; split; reflexivity.
Qed.

Lemma finishedIn_finish (c : Files) (n x : string) :
  get c n <> None ->
  finishedIn (finish n c) x = if String.eqb x n then true else finishedIn c x.
Proof.
  intros G. unfold finishedIn. rewrite get_finish.
  destruct (String.eqb x n); [|reflexivity].
  destruct (get c n); [reflexivity|congruence].
Qed.

Lemma seenIn_finish (c : Files) (n x : string) :
  seenIn (finish n c) x = if String.eqb x n then false else seenIn c x.
Proof.
  unfold seenIn. rewrite get_finish.
  destruct (String.eqb x n); [|reflexivity].
  destruct (get c n); reflexivity.
Qed.

Lemma childrenOf_finish (c : Files) (n x : string) :
  childrenOf (finish n c) x = childrenOf c x.
Proof.
  unfold childrenOf. rewrite get_finish.
  destruct (String.eqb_spec x n) as [->|_]; [|reflexivity].
  destruct (get c n); reflexivity.
Qed.

Lemma childrenOf_push (c : Files) (p n x : string) :
  get c p <> None ->
  childrenOf (update c p (push_child n)) x =
  if String.eqb x p then Some (childList c p ++ [n]) else childrenOf c x.
Proof.
  intros G. unfold childList, childrenOf. rewrite get_update.
  destruct (String.eqb_spec x p) as [->|_]; [|reflexivity].
  destruct (get c p) as [f|]; [|congruence]. simpl.
  unfold push_child. destruct (children f); reflexivity.
Qed.

Lemma finishedIn_push (c : Files) (p n x : string) :
  finishedIn (update c p (push_child n)) x = finishedIn c x.
Proof.
  unfold finishedIn. rewrite get_update.
  destruct (String.eqb_spec x p) as [->|_]; [|reflexivity].
  destruct (get c p) as [f|]; [|reflexivity]. simpl.
  unfold push_child. destruct (children f); reflexivity.
Qed.

Lemma seenIn_push (c : Files) (p n x : string) :
  seenIn (update c p (push_child n)) x = seenIn c x.
Proof.
  unfold seenIn. rewrite get_update.
  destruct (String.eqb_spec x p) as [->|_]; [|reflexivity].
  destruct (get c p) as [f|]; [|reflexivity]. simpl.
  unfold push_child. destruct (children f); reflexivity.
Qed.

Lemma shape_push (c : Files) (p n : string) :
  shape (update c p (push_child n)) = shape c.
Proof.
  apply shape_update. intros f. unfold push_child.
  destruct (children f); split; reflexivity.
Qed.

Lemma get_push_none (c : Files) (p n x : string) :
  get (update c p (push_child n)) x = None <-> get c x = None.
Proof.
  rewrite get_update. destruct (String.eqb_spec x p) as [->|_]; [|tauto].
  destruct (get c p); simpl; split; congruence.
Qed.

Lemma Inv_place_root (c0 : Files) (st : TreeState) (n : string) :
  Inv c0 st -> get (coll st) n <> None -> finishedIn (coll st) n = false ->
  parentOf c0 n = None ->
  Inv c0 (mkTree (finish n (coll st)) (roots st ++ [n])).
Proof.
  intros [I1 I2 I3 I4 I5 I6 I7] G Fn P.
  constructor; simpl.
  - rewrite shape_finish. exact I1.
  - intros p x. unfold childList. rewrite childrenOf_finish.
    rewrite finishedIn_finish by exact G. fold (childList (coll st) p).
    rewrite I2. destruct (String.eqb_spec x n) as [->|_]; [|tauto].
    rewrite Fn, P. split; intros [? ?]; discriminate.
  - intros p. unfold childList. rewrite childrenOf_finish. apply I3.
  - intros p. rewrite childrenOf_finish. apply I4.
  - intros x. rewrite in_app_iff, I5, finishedIn_finish by exact G. simpl.
    destruct (String.eqb_spec x n) as [->|Hx].
    + rewrite Fn. split; [auto|]. intros _. right. left. reflexivity.
    + split; [|tauto]. intros [H|[H|[]]]; [exact H|congruence].
  - apply NoDup_app; [exact I6|repeat constructor; simpl; tauto|].
    intros x Hx [<-|[]]. apply I5 in Hx. destruct Hx. congruence.
  - intros x. rewrite finishedIn_finish by exact G.
    destruct (String.eqb_spec x n) as [->|_]; [|apply I7].
    intros _. apply Rooted_root; [|exact P].
    intros E. apply G. eapply shape_get_none; [symmetry; exact I1|exact E].
Qed.

Lemma Inv_place_child (c0 : Files) (st : TreeState) (n p : string) :
  Inv c0 st -> get (coll st) n <> None -> get (coll st) p <> None ->
  finishedIn (coll st) n = false -> finishedIn (coll st) p = true ->
  parentOf c0 n = Some p ->
  Inv c0 (on_coll (finish n)
            (on_coll (fun c => update c p (push_child n)) st)).
Proof.
  intros [I1 I2 I3 I4 I5 I6 I7] Gn Gp Fn Fp P.
  assert (Gn' : get (update (coll st) p (push_child n)) n <> None).
  { rewrite get_push_none. exact Gn. }
  constructor; simpl.
  - rewrite shape_finish, shape_push. exact I1.
  - intros q x. unfold childList. rewrite childrenOf_finish.
    rewrite childrenOf_push by exact Gp.
    rewrite finishedIn_finish by exact Gn'. rewrite finishedIn_push.
    destruct (String.eqb_spec q p) as [->|Hq].
    + rewrite in_app_iff, I2. simpl.
      destruct (String.eqb_spec x n) as [->|Hx].
      * split; [auto|]. intros _. right. left. reflexivity.
      * split; [|tauto]. intros [H|[H|[]]]; [exact H|congruence].
    + fold (childList (coll st) q). rewrite I2.
      destruct (String.eqb_spec x n) as [->|Hx]; [|tauto].
      rewrite Fn, P. split; intros [? ?]; congruence.
  - intros q. unfold childList. rewrite childrenOf_finish.
    rewrite childrenOf_push by exact Gp.
    destruct (String.eqb_spec q p) as [->|Hq]; [|apply I3].
    apply NoDup_app; [apply I3|repeat constructor; simpl; tauto|].
    intros x Hx [<-|[]]. apply I2 in Hx. destruct Hx. congruence.
  - intros q. rewrite childrenOf_finish. rewrite childrenOf_push by exact Gp.
    destruct (String.eqb_spec q p) as [->|Hq]; [|apply I4].
    intros E. injection E as E. destruct (childList (coll st) p); discriminate.
  - intros x. rewrite I5, finishedIn_finish by exact Gn'.
    rewrite finishedIn_push.
    destruct (String.eqb_spec x n) as [->|_]; [|tauto].
    rewrite Fn, P. split; intros [? ?]; discriminate.
  - exact I6.
  - intros x. rewrite finishedIn_finish by exact Gn'. rewrite finishedIn_push.
    destruct (String.eqb_spec x n) as [->|_]; [|apply I7].
    intros _. eapply Rooted_child; [exact P|]. apply I7. exact Fp.
Qed.

Lemma seenIn_mark (c : Files) (n x : string) :
  get c n <> None ->
  seenIn (update c n (set_seen true)) x =
  if String.eqb x n then true else seenIn c x.
Proof.
  intros G. unfold seenIn. rewrite get_update.
  destruct (String.eqb x n); [|reflexivity].
  destruct (get c n); [reflexivity|congruence].
Qed.

Lemma finishedIn_mark (c : Files) (n x : string) :
  finishedIn (update c n (set_seen true)) x = finishedIn c x.
Proof.
  unfold finishedIn. rewrite get_update.
  destruct (String.eqb_spec x n) as [->|_]; [|reflexivity].
  destruct (get c n); reflexivity.
Qed.

Lemma get_mark_none (c : Files) (n x : string) :
  get (update c n (set_seen true)) x = None <-> get c x = None.
Proof.
  rewrite get_update. destruct (String.eqb_spec x n) as [->|_]; [|tauto].
  destruct (get c n); simpl; split; congruence.
Qed.

Lemma Inv_get (c0 : Files) (st : TreeState) (x : string) :
  Inv c0 st -> get (coll st) x = None <-> get c0 x = None.
Proof.
  intros I. split; apply shape_get_none; [|symmetry]; apply (inv_shape _ _ I).
Qed.

Lemma Inv_parentOf (c0 : Files) (st : TreeState) (x : string) :
  Inv c0 st -> parentOf (coll st) x = parentOf c0 x.
Proof. intros I. apply shape_parentOf, (inv_shape _ _ I). Qed.

(** What a call of [createLayoutTree] that returns leaves behind. *)
Lemma createLayoutTree_ok (c0 : Files) (fuel : nat) :
  forall n st st',
    Inv c0 st -> createLayoutTree fuel n st = Ok st' ->
    Inv c0 st'
    /\ (forall x, seenIn (coll st') x = seenIn (coll st) x)
    /\ (forall x, finishedIn (coll st) x = true ->
                  finishedIn (coll st') x = true)
    /\ (forall x, seenIn (coll st) x = true ->
                  finishedIn (coll st') x = finishedIn (coll st) x)
    /\ (get c0 n <> None -> finishedIn (coll st') n = true).
Proof.
  induction fuel as [|fuel IH]; intros n st st' I H; [discriminate|].
  simpl in H. destruct (get (coll st) n) as [file|] eqn:G.
  2:{ injection H as <-. split; [|split; [|split; [|split]]]; auto.
      intros N. exfalso. apply N. apply (Inv_get c0 st n I). exact G. }
  destruct (finished file) eqn:Ffile.
  { injection H as <-. split; [|split; [|split; [|split]]]; auto.
    intros _. unfold finishedIn. rewrite G. exact Ffile. }
  destruct (seen file) eqn:Sfile; [discriminate|].
  assert (Gn : get (coll st) n <> None) by congruence.
  assert (Fn : finishedIn (coll st) n = false).
  { unfold finishedIn. rewrite G. exact Ffile. }
  assert (Sn : seenIn (coll st) n = false).
  { unfold seenIn. rewrite G. exact Sfile. }
  assert (P : parentOf c0 n = truthy (layout file)).
  { rewrite <- (Inv_parentOf c0 st n I). unfold parentOf. rewrite G.
    reflexivity. }
  pose proof (Inv_mark_seen c0 st n I) as I1.
  set (st1 := on_coll (fun c => update c n (set_seen true)) st) in *.
  destruct (truthy (layout file)) as [p|] eqn:T.
  - destruct (createLayoutTree fuel p st1) as [st2| |] eqn:R;
      simpl in H; try discriminate.
    destruct (get (coll st2) p) as [pf|] eqn:Gp; simpl in H; try discriminate.
    injection H as <-.
    destruct (IH p st1 st2 I1 R) as (I2 & S2 & F2 & SF2 & Fp2).
    assert (S1n : seenIn (coll st1) n = true).
    { unfold st1. simpl. rewrite seenIn_mark by exact Gn.
      rewrite String.eqb_refl. reflexivity. }
    assert (Fn2 : finishedIn (coll st2) n = false).
    { rewrite (SF2 n S1n). unfold st1. simpl. rewrite finishedIn_mark.
      exact Fn. }
    assert (Gn2 : get (coll st2) n <> None).
    { intros E. apply Gn. apply (Inv_get c0 st n I).
      apply (Inv_get c0 st2 n I2). exact E. }
    assert (Gp2 : get (coll st2) p <> None) by congruence.
    assert (Fp : finishedIn (coll st2) p = true).
    { apply Fp2. intros E. apply Gp2. apply (Inv_get c0 st2 p I2). exact E. }
    assert (Gn2' : get (update (coll st2) p (push_child n)) n <> None).
    { rewrite get_push_none. exact Gn2. }
    split; [apply Inv_place_child; assumption|].
    simpl. split; [|split; [|split]].
    + intros x. rewrite seenIn_finish, seenIn_push, S2. unfold st1. simpl.
      rewrite seenIn_mark by exact Gn.
      destruct (String.eqb_spec x n) as [->|_]; [|reflexivity].
      symmetry. exact Sn.
    + intros x Hx. rewrite finishedIn_finish by exact Gn2'.
      rewrite finishedIn_push.
      destruct (String.eqb x n); [reflexivity|]. apply F2. unfold st1. simpl.
      rewrite finishedIn_mark. exact Hx.
    + intros x Hx. rewrite finishedIn_finish by exact Gn2'.
      rewrite finishedIn_push.
      destruct (String.eqb_spec x n) as [->|Hxn]; [congruence|].
      rewrite SF2.
      * unfold st1. simpl. apply finishedIn_mark.
      * unfold st1. simpl. rewrite seenIn_mark by exact Gn.
        destruct (String.eqb x n); [reflexivity|exact Hx].
    + intros _. rewrite finishedIn_finish by exact Gn2'.
      rewrite String.eqb_refl. reflexivity.
  - simpl in H. injection H as <-.
    assert (Gn1 : get (coll st1) n <> None).
    { unfold st1. simpl. rewrite get_mark_none. exact Gn. }
    assert (Fn1 : finishedIn (coll st1) n = false).
    { unfold st1. simpl. rewrite finishedIn_mark. exact Fn. }
    split; [apply (Inv_place_root c0 st1 n I1 Gn1 Fn1 P)|].
    simpl. split; [|split; [|split]].
    + intros x. rewrite seenIn_finish. unfold st1. simpl.
      rewrite seenIn_mark by exact Gn.
      destruct (String.eqb_spec x n) as [->|_]; [|reflexivity].
      symmetry. exact Sn.
    + intros x Hx. rewrite finishedIn_finish by exact Gn1.
      destruct (String.eqb x n); [reflexivity|]. unfold st1. simpl.
      rewrite finishedIn_mark. exact Hx.
    + intros x Hx. rewrite finishedIn_finish by exact Gn1.
      destruct (String.eqb_spec x n) as [->|Hxn]; [congruence|].
      unfold st1. simpl. apply finishedIn_mark.
    + intros _. rewrite finishedIn_finish by exact Gn1.
      rewrite String.eqb_refl. reflexivity.
Qed.

(** ** Outcomes of the tree builder *)

Lemma ancestor_snoc (c : Files) (k : nat) :
  forall n, ancestor c (S k) n =
            match ancestor c k n with
            | Some m => parentOf c m
            | None => None
            end.
Proof.
  induction k as [|k IH]; intros n.
  - simpl. destruct (parentOf c n); reflexivity.
  - change (ancestor c (S (S k)) n)
      with (match parentOf c n with
            | Some p => ancestor c (S k) p
            | None => None
            end).
    destruct (parentOf c n) as [p|] eqn:P.
    + rewrite IH. simpl. rewrite P. reflexivity.
    + simpl. rewrite P. reflexivity.
Qed.

Lemma ancestor_add (c : Files) (a b : nat) :
  forall n, ancestor c (a + b) n =
            match ancestor c a n with
            | Some m => ancestor c b m
            | None => None
            end.
Proof.
  induction a as [|a IH]; intros n; [reflexivity|].
  simpl. destruct (parentOf c n); [apply IH|reflexivity].
Qed.

Lemma Rooted_get (c : Files) (n : string) : Rooted c n -> get c n <> None.
Proof.
  intros [m G _|m p P _]; [exact G|].
  unfold parentOf in P. destruct (get c m); [discriminate|discriminate].
Qed.

Lemma Rooted_not_on_cycle (c : Files) (n : string) :
  Rooted c n -> ~ on_cycle c n.
Proof.
  induction 1 as [n G P|n p P R IH]; intros [k H].
  - simpl in H. rewrite P in H. discriminate.
  - apply IH. exists k. rewrite ancestor_snoc.
    simpl in H. rewrite P in H. rewrite H. exact P.
Qed.

Lemma createLayoutTree_shape (fuel : nat) :
  forall n st st',
    createLayoutTree fuel n st = Ok st' -> shape (coll st') = shape (coll st).
Proof.
  induction fuel as [|fuel IH]; intros n st st' H; [discriminate|].
  simpl in H. destruct (get (coll st) n) as [file|]; [|congruence].
  destruct (finished file); [congruence|].
  destruct (seen file); [discriminate|].
  assert (Sh1 : shape (update (coll st) n (set_seen true)) = shape (coll st)).
  { apply shape_update. intros f. split; reflexivity. }
  destruct (truthy (layout file)) as [p|].
  - destruct (createLayoutTree fuel p _) as [st2| |] eqn:R;
      simpl in H; try discriminate.
    destruct (get (coll st2) p); simpl in H; [|discriminate].
    injection H as <-. simpl. rewrite shape_finish, shape_push.
    rewrite (IH _ _ _ R). exact Sh1.
  - simpl in H. injection H as <-. simpl. rewrite shape_finish. exact Sh1.
Qed.

(** A call of [createLayoutTree] that throws: the error names a layout on a
    cycle, or the parent that is not in the collection. *)
Lemma createLayoutTree_throw (c0 : Files) (fuel : nat) :
  forall n st e,
    shape (coll st) = shape c0 ->
    (forall s, seenIn (coll st) s = true ->
               exists k, ancestor c0 (S k) s = Some n) ->
    createLayoutTree fuel n st = Throw e ->
    (exists m, e = CircularDependency m /\ on_cycle c0 m)
    \/ (exists x p, e = TypeError p /\ dangling c0 x p).
Proof.
  induction fuel as [|fuel IH]; intros n st e Sh Path H; [discriminate|].
  simpl in H. destruct (get (coll st) n) as [file|] eqn:G; [|discriminate].
  destruct (finished file); [discriminate|].
  destruct (seen file) eqn:Sfile.
  { injection H as <-. left. exists n. split; [reflexivity|].
    apply Path. unfold seenIn. rewrite G. exact Sfile. }
  assert (Gn : get (coll st) n <> None) by congruence.
  assert (P : parentOf c0 n = truthy (layout file)).
  { rewrite <- (shape_parentOf _ _ n Sh). unfold parentOf. rewrite G.
    reflexivity. }
  set (st1 := on_coll (fun c => update c n (set_seen true)) st) in *.
  assert (Sh1 : shape (coll st1) = shape c0).
  { unfold st1. simpl. rewrite shape_update; [exact Sh|].
    intros f. split; reflexivity. }
  destruct (truthy (layout file)) as [p|] eqn:T; [|discriminate].
  destruct (createLayoutTree fuel p st1) as [st2| |] eqn:R;
    simpl in H; try discriminate.
  - destruct (get (coll st2) p) as [pf|] eqn:Gp; simpl in H; [discriminate|].
    injection H as <-. right. exists n, p. split; [reflexivity|].
    split; [exact P|].
    pose proof (createLayoutTree_shape fuel p st1 st2 R) as Sh2.
    eapply shape_get_none; [|exact Gp]. rewrite Sh2. exact Sh1.
  - injection H as <-. eapply (IH p st1 _ Sh1); [|exact R].
    intros s Hs. unfold st1 in Hs. simpl in Hs.
    rewrite seenIn_mark in Hs by exact Gn.
    destruct (String.eqb_spec s n) as [E|_].
    + rewrite E. exists 0. simpl. rewrite P. reflexivity.
    + destruct (Path s Hs) as [k Hk]. exists (S k).
      rewrite ancestor_snoc, Hk. exact P.
Qed.

Lemma white_mark (c : Files) (n : string) (f : File) :
  get c n = Some f -> seen f = false -> finished f = false ->
  S (white (update c n (set_seen true))) = white c.
Proof.
  unfold white. induction c as [|[k g] c IH]; simpl; [discriminate|].
  intros G S F. destruct (String.eqb_spec n k) as [->|Hn].
  - injection G as ->. simpl. rewrite S, F. simpl. reflexivity.
  - simpl. destruct (negb (seen g) && negb (finished g)); simpl;
      rewrite <- (IH G S F); reflexivity.
Qed.

Lemma white_le (c : Files) : white c <= length c.
Proof. unfold white. apply filter_length_le. Qed.

(** The recursion of [createLayoutTree] ends: every nested call follows the
    marking of an entry that was neither visited nor finished. *)
Lemma createLayoutTree_fuel (fuel : nat) :
  forall n st, white (coll st) < fuel ->
               createLayoutTree fuel n st <> OutOfFuel.
Proof.
  induction fuel as [|fuel IH]; intros n st W; [lia|].
  simpl. destruct (get (coll st) n) as [file|] eqn:G; [|discriminate].
  destruct (finished file) eqn:F; [discriminate|].
  destruct (seen file) eqn:S; [discriminate|].
  destruct (truthy (layout file)) as [p|]; [|discriminate].
  pose proof (white_mark (coll st) n file G S F) as W1.
  set (st1 := on_coll (fun c => update c n (set_seen true)) st).
  assert (R : createLayoutTree fuel p st1 <> OutOfFuel).
  { apply IH. unfold st1. simpl. lia. }
  destruct (createLayoutTree fuel p st1) as [st2| |]; simpl;
    [|discriminate|congruence].
  destruct (get (coll st2) p); discriminate.
Qed.

Lemma forEachTree_ok (c0 : Files) (fuel : nat) (names : list string) :
  forall st st',
    Inv c0 st -> (forall x, seenIn (coll st) x = false) ->
    forEachTree fuel names st = Ok st' ->
    Inv c0 st'
    /\ (forall x, seenIn (coll st') x = false)
    /\ (forall x, finishedIn (coll st) x = true ->
                  finishedIn (coll st') x = true)
    /\ (forall x, In x names -> get c0 x <> None ->
                  finishedIn (coll st') x = true).
Proof.
  induction names as [|n names IH]; intros st st' I S H; simpl in H.
  - injection H as <-. split; [|split; [|split]]; auto; intros x [].
  - destruct (createLayoutTree fuel n st) as [st1| |] eqn:R;
      simpl in H; try discriminate.
    destruct (createLayoutTree_ok c0 fuel n st st1 I R)
      as (I1 & S1 & F1 & _ & Fn).
    assert (S1' : forall x, seenIn (coll st1) x = false).
    { intros x. rewrite S1. apply S. }
    destruct (IH st1 st' I1 S1' H) as (I' & S' & F' & Fnames).
    split; [exact I'|]. split; [exact S'|]. split.
    + intros x Hx. apply F', F1, Hx.
    + intros x [<-|Hx] Gx; [apply F', Fn, Gx|apply Fnames; assumption].
Qed.

Lemma forEachTree_throw (c0 : Files) (fuel : nat) (names : list string) :
  forall st e,
    Inv c0 st -> (forall x, seenIn (coll st) x = false) ->
    forEachTree fuel names st = Throw e ->
    (exists m, e = CircularDependency m /\ on_cycle c0 m)
    \/ (exists x p, e = TypeError p /\ dangling c0 x p).
Proof.
  induction names as [|n names IH]; intros st e I S H; simpl in H;
    [discriminate|].
  destruct (createLayoutTree fuel n st) as [st1|e1|] eqn:R;
    simpl in H; try discriminate.
  - destruct (createLayoutTree_ok c0 fuel n st st1 I R)
      as (I1 & S1 & _).
    apply (IH st1 e I1); [|exact H]. intros x. rewrite S1. apply S.
  - injection H as <-.
    apply (createLayoutTree_throw c0 fuel n st e1 (inv_shape _ _ I));
      [|exact R].
    intros s Hs. rewrite S in Hs. discriminate.
Qed.

Lemma forEachTree_fuel (c0 : Files) (fuel : nat) (names : list string) :
  forall st,
    Inv c0 st -> length c0 < fuel -> forEachTree fuel names st <> OutOfFuel.
Proof.
  induction names as [|n names IH]; intros st I L; simpl; [discriminate|].
  assert (R : createLayoutTree fuel n st <> OutOfFuel).
  { apply createLayoutTree_fuel. pose proof (white_le (coll st)).
    rewrite (shape_length _ _ (inv_shape _ _ I)) in H. lia. }
  destruct (createLayoutTree fuel n st) as [st1| |] eqn:E; simpl;
    [|discriminate|congruence].
  apply IH; [|exact L]. apply (createLayoutTree_ok c0 fuel n st st1 I E).
Qed.

(** The three outcomes of building the tree of a collection. *)
Lemma buildTree_ok (c : Files) (st : TreeState) :
  buildTree (new_symbols c) = Ok st ->
  Inv c st
  /\ (forall x, seenIn (coll st) x = false)
  /\ (forall x, get c x <> None -> finishedIn (coll st) x = true).
Proof.
  unfold buildTree. intros H.
  destruct (forEachTree_ok c _ _ _ st (Inv_init c)
              (seenIn_new_symbols c) H) as (I & S & _ & F).
  split; [exact I|]. split; [exact S|]. intros x Gx. apply F; [|exact Gx].
  rewrite (shape_keys _ _ (shape_new_symbols c)). apply get_in_keys, Gx.
Qed.

Lemma buildTree_throw (c : Files) (e : Error) :
  buildTree (new_symbols c) = Throw e ->
  (exists m, e = CircularDependency m /\ on_cycle c m)
  \/ (exists x p, e = TypeError p /\ dangling c x p).
Proof.
  unfold buildTree. intros H.
  exact (forEachTree_throw c _ _ _ e (Inv_init c) (seenIn_new_symbols c) H).
Qed.

Lemma buildTree_fuel (c : Files) : buildTree (new_symbols c) <> OutOfFuel.
Proof.
  unfold buildTree. apply (forEachTree_fuel c); [apply Inv_init|].
  rewrite (shape_length _ _ (shape_new_symbols c)). lia.
Qed.

(** When the tree is built, the collection is a forest. *)
Lemma buildTree_ok_forest (c : Files) (st : TreeState) :
  buildTree (new_symbols c) = Ok st -> acyclic c /\ resolved c.
Proof.
  intros H. destruct (buildTree_ok c st H) as (I & _ & F).
  assert (R : forall x, get c x <> None -> Rooted c x).
  { intros x Gx. apply (inv_rooted _ _ I), F, Gx. }
  split.
  - intros n C. assert (Gn : get c n <> None).
    { destruct C as [k Hk]. simpl in Hk. unfold parentOf in Hk.
      destruct (get c n); [discriminate|discriminate]. }
    exact (Rooted_not_on_cycle c n (R n Gn) C).
  - intros n p P. assert (Gn : get c n <> None).
    { unfold parentOf in P. destruct (get c n); [discriminate|discriminate]. }
    pose proof (R n Gn) as Rn. inversion Rn as [m G P'|m q P' Rq]; subst.
    + congruence.
    + rewrite P in P'. injection P' as <-. apply Rooted_get, Rq.
Qed.

(** ** The schedule of renders *)

Lemma before_app_l {A : Type} (x y : A) (l l' : list A) :
  before x y l -> before x y (l ++ l').
Proof.
  intros (l1 & l2 & E & H). exists l1, (l2 ++ l'). split; [|exact H].
  rewrite E, <- app_assoc. reflexivity.
Qed.

Lemma before_app_r {A : Type} (x y : A) (l l' : list A) :
  before x y l' -> before x y (l ++ l').
Proof.
  intros (l1 & l2 & E & H). exists (l ++ l1), l2. split.
  - rewrite E, <- app_assoc. reflexivity.
  - apply in_or_app. right. exact H.
Qed.

Lemma before_app_both {A : Type} (x y : A) (l l' : list A) :
  In x l -> In y l' -> before x y (l ++ l').
Proof.
  intros Hx Hy. apply in_split in Hy. destruct Hy as (l1 & l2 & ->).
  exists (l ++ l1), l2. split.
  - rewrite <- app_assoc. reflexivity.
  - apply in_or_app. left. exact Hx.
Qed.

Lemma parentOf_get (c : Files) (n p : string) :
  parentOf c n = Some p -> get c n <> None.
Proof.
  unfold parentOf. destruct (get c n); [discriminate|discriminate].
Qed.

Lemma buildTree_forest (c : Files) (st : TreeState) :
  buildTree (new_symbols c) = Ok st -> Forest c (coll st) (roots st).
Proof.
  intros H. destruct (buildTree_ok c st H) as (I & _ & F).
  destruct (buildTree_ok_forest c st H) as [A _].
  constructor.
  - intros p x. rewrite (inv_children _ _ I). split; [tauto|].
    intros P. split; [|exact P]. apply F. eapply parentOf_get, P.
  - apply (inv_children_nodup _ _ I).
  - apply (inv_children_nonempty _ _ I).
  - intros x. rewrite (inv_roots _ _ I). split.
    + intros [Fx P]. split; [|exact P].
      apply Rooted_get, (inv_rooted _ _ I), Fx.
    + intros [G P]. split; [apply F, G|exact P].
  - apply (inv_roots_nodup _ _ I).
  - intros x. apply (Inv_get c st x I).
  - exact A.
Qed.

(** Two ancestors of one node are ancestors of each other. *)
Lemma ancestor_comparable (c : Files) (x p q : string) (i j : nat) :
  ancestor c i x = Some p -> ancestor c j x = Some q -> i <= j ->
  ancestor c (j - i) p = Some q.
Proof.
  intros Hi Hj L. replace j with (i + (j - i)) in Hj by lia.
  rewrite ancestor_add, Hi in Hj. exact Hj.
Qed.

Lemma acyclic_ancestor_self (c : Files) (p : string) (k : nat) :
  acyclic c -> ancestor c k p = Some p -> k = 0.
Proof.
  intros A H. destruct k as [|k]; [reflexivity|].
  exfalso. apply (A p). exists k. exact H.
Qed.

Lemma ancestor_one (c : Files) (x : string) :
  ancestor c 1 x = parentOf c x.
Proof. simpl. destruct (parentOf c x); reflexivity. Qed.

Lemma siblings_incomparable (c0 c : Files) (rts : list string) (p : string) :
  Forest c0 c rts -> incomparable c0 (childList c p).
Proof.
  intros Fo s1 s2 k H1 H2 A.
  apply (fo_children _ _ _ Fo) in H1, H2.
  assert (E : ancestor c0 (S k) s1 = Some p).
  { rewrite ancestor_snoc, A. exact H2. }
  simpl in E. rewrite H1 in E.
  apply (acyclic_ancestor_self _ _ _ (fo_acyclic _ _ _ Fo)) in E. subst k.
  simpl in A. congruence.
Qed.

Lemma descendants_disjoint (c0 : Files) (level : list string)
  (p q x : string) (i j : nat) :
  incomparable c0 level -> In p level -> In q level ->
  ancestor c0 i x = Some p -> ancestor c0 j x = Some q -> p = q.
Proof.
  intros Inc Hp Hq Hi Hj. destruct (Nat.le_ge_cases i j) as [L|L].
  - apply (Inc p q (j - i) Hp Hq).
    apply (ancestor_comparable c0 x p q i j Hi Hj L).
  - symmetry. apply (Inc q p (i - j) Hq Hp).
    apply (ancestor_comparable c0 x q p j i Hj Hi L).
Qed.

Lemma forEachParent_sched (c0 c : Files) (rts : list string)
  (rec : list string -> Res (list (list string))) :
  Forest c0 c rts ->
  forall level,
    (forall p, In p level -> get c0 p <> None) ->
    (forall p cl, In p level -> childrenOf c p = Some cl ->
                  exists ls, rec cl = Ok ls /\ Sched c0 cl (concat ls)) ->
    exists ls, forEachParent rec c level = Ok ls
               /\ Sched c0 level (concat ls).
Proof.
  intros Fo. induction level as [|parent rest IH]; intros G Hrec.
  - exists []. split; [reflexivity|]. split; [|split].
    + intros x. simpl. split; [tauto|]. intros (p & k & [] & _).
    + intros x q [].
    + intros _ _. constructor.
  - destruct IH as (after & Eafter & Safter).
    { intros p Hp. apply G. right. exact Hp. }
    { intros p cl Hp. apply Hrec. right. exact Hp. }
    destruct Safter as (Mafter & Oafter & Nafter).
    simpl. destruct (get c parent) as [f|] eqn:Gp.
    2:{ exfalso. apply (G parent); [left; reflexivity|].
        apply (fo_get _ _ _ Fo). exact Gp. }
    assert (CO : childrenOf c parent = children f).
    { unfold childrenOf. rewrite Gp. reflexivity. }
    destruct (children f) as [cl|] eqn:Ch.
    + destruct (Hrec parent cl (or_introl eq_refl) CO)
        as (below & Ebelow & Mbelow & Obelow & Nbelow).
      rewrite Ebelow, Eafter. simpl.
      exists (cl :: below ++ after). split; [reflexivity|].
      assert (CL : childList c parent = cl).
      { unfold childList. rewrite CO. reflexivity. }
      assert (Mcl : forall x, In x cl <-> parentOf c0 x = Some parent).
      { intros x. rewrite <- CL. apply (fo_children _ _ _ Fo). }
      assert (Mdesc : forall x, In x (cl ++ concat below) <->
                                exists k, ancestor c0 (S k) x = Some parent).
      { intros x. rewrite in_app_iff, Mcl, Mbelow. split.
        - intros [P|(s & k & Hs & A)].
          + exists 0. rewrite ancestor_one. exact P.
          + exists (S k). rewrite ancestor_snoc, A. apply Mcl, Hs.
        - intros [[|k] A].
          + left. rewrite ancestor_one in A. exact A.
          + right. rewrite ancestor_snoc in A.
            destruct (ancestor c0 (S k) x) as [s|] eqn:As; [|discriminate].
            exists s, k. split; [apply Mcl, A|exact As]. }
      simpl. rewrite concat_app, app_assoc.
      split; [|split].
      * intros x. rewrite in_app_iff, Mdesc, Mafter. split.
        -- intros [[k A]|(p & k & Hp & A)].
           ++ exists parent, k. split; [left; reflexivity|exact A].
           ++ exists p, k. split; [right; exact Hp|exact A].
        -- intros (p & k & [<-|Hp] & A).
           ++ left. exists k. exact A.
           ++ right. exists p, k. split; assumption.
      * intros x q Hx P. apply in_app_or in Hx. destruct Hx as [Hx|Hx].
        -- apply in_app_or in Hx. destruct Hx as [Hx|Hx].
           ++ left. left. apply Mcl in Hx. congruence.
           ++ right. apply before_app_l.
              destruct (Obelow x q Hx P) as [Hq|B].
              ** apply before_app_both; assumption.
              ** apply before_app_r. exact B.
        -- destruct (Oafter x q Hx P) as [Hq|B].
           ++ left. right. exact Hq.
           ++ right. apply before_app_r. exact B.
      * intros ND Inc. apply NoDup_cons_iff in ND. destruct ND as [Nin ND'].
        assert (Inc' : incomparable c0 rest).
        { intros p q k Hp Hq. apply Inc; right; assumption. }
        apply NoDup_app; [apply NoDup_app| |].
        -- rewrite <- CL. apply (fo_children_nodup _ _ _ Fo).
        -- apply Nbelow.
           ++ rewrite <- CL. apply (fo_children_nodup _ _ _ Fo).
           ++ rewrite <- CL. apply (siblings_incomparable c0 c rts parent Fo).
        -- intros x Hx Hb. apply Mcl in Hx. apply Mbelow in Hb.
           destruct Hb as (s & k & Hs & A). apply Mcl in Hs.
           simpl in A. rewrite Hx in A.
           apply (fo_acyclic _ _ _ Fo parent). exists k.
           rewrite ancestor_snoc, A. exact Hs.
        -- apply Nafter; assumption.
        -- intros x Hx Ha. apply Mdesc in Hx. apply Mafter in Ha.
           destruct Hx as [k A]. destruct Ha as (q & j & Hq & B).
           apply Nin.
           rewrite (descendants_disjoint c0 (parent :: rest) parent q x
                      (S k) (S j) Inc (or_introl eq_refl)
                      (or_intror Hq) A B).
           exact Hq.
    + rewrite Eafter. exists after. split; [reflexivity|].
      assert (CL : childList c parent = []).
      { unfold childList. rewrite CO. reflexivity. }
      assert (Nochild : forall x, parentOf c0 x <> Some parent).
      { intros x P. apply (fo_children _ _ _ Fo) in P. rewrite CL in P.
        exact P. }
      split; [|split].
      * intros x. rewrite Mafter. split.
        -- intros (p & k & Hp & A). exists p, k. split; [right|]; assumption.
        -- intros (p & k & [<-|Hp] & A).
           ++ exfalso. rewrite ancestor_snoc in A.
              destruct (ancestor c0 k x) as [s|]; [|discriminate].
              exact (Nochild s A).
           ++ exists p, k. split; assumption.
      * intros x q Hx P. destruct (Oafter x q Hx P) as [Hq|B].
        -- left. right. exact Hq.
        -- right. exact B.
      * intros ND Inc. apply NoDup_cons_iff in ND. destruct ND as [Nin ND'].
        apply Nafter; [assumption|].
        intros p q k Hp Hq. apply Inc; right; assumption.
Qed.

Lemma renderLayouts_sched (c0 c : Files) (rts : list string) (fuel : nat) :
  Forest c0 c rts ->
  forall level,
    fuel <> 0 ->
    (forall p, In p level -> get c0 p <> None) ->
    (forall p x k, In p level -> ancestor c0 k x = Some p -> k < fuel) ->
    exists ls, renderLayouts fuel c level = Ok ls
               /\ Sched c0 level (concat ls).
Proof.
  intros Fo. induction fuel as [|fuel IH]; intros level F0 G B; [congruence|].
  simpl. apply (forEachParent_sched c0 c rts _ Fo level G).
  intros p cl Hp CO.
  assert (CL : childList c p = cl).
  { unfold childList. rewrite CO. reflexivity. }
  assert (Mcl : forall x, In x cl -> parentOf c0 x = Some p).
  { intros x. rewrite <- CL. apply (fo_children _ _ _ Fo). }
  assert (Bcl : forall s x k, In s cl -> ancestor c0 k x = Some s -> k < fuel).
  { intros s x k Hs A. apply Mcl in Hs.
    assert (A' : ancestor c0 (S k) x = Some p).
    { rewrite ancestor_snoc, A. exact Hs. }
    pose proof (B p x (S k) Hp A'). lia. }
  apply IH.
  - destruct cl as [|s cl'].
    + exfalso. exact (fo_children_nonempty _ _ _ Fo p CO).
    + pose proof (Bcl s s 0 (or_introl eq_refl) eq_refl). lia.
  - intros s Hs. eapply parentOf_get, Mcl, Hs.
  - exact Bcl.
Qed.

Lemma chain_length (c : Files) (k : nat) :
  forall x p, ancestor c k x = Some p -> length (chain c k x) = S k.
Proof.
  induction k as [|k IH]; intros x p A; [reflexivity|].
  simpl in *. destruct (parentOf c x) as [q|]; [|discriminate].
  simpl. rewrite (IH q p A). reflexivity.
Qed.

Lemma chain_in (c : Files) (k : nat) :
  forall x m, In m (chain c k x) -> exists i, ancestor c i x = Some m.
Proof.
  induction k as [|k IH]; intros x m H; simpl in H.
  - destruct H as [<-|[]]. exists 0. reflexivity.
  - destruct (parentOf c x) as [q|] eqn:P.
    + destruct H as [<-|H]; [exists 0; reflexivity|].
      destruct (IH q m H) as [i A]. exists (S i). simpl. rewrite P. exact A.
    + destruct H as [<-|[]]. exists 0. reflexivity.
Qed.

Lemma chain_nodup (c : Files) (k : nat) :
  acyclic c -> forall x, NoDup (chain c k x).
Proof.
  intros Ac. induction k as [|k IH]; intros x; simpl.
  - repeat constructor. simpl. tauto.
  - destruct (parentOf c x) as [q|] eqn:P.
    + constructor; [|apply IH]. intros H.
      destruct (chain_in c k q x H) as [i A].
      apply (Ac x). exists i. simpl. rewrite P. exact A.
    + repeat constructor. simpl. tauto.
Qed.

Lemma chain_keys (c : Files) (k : nat) :
  forall x p, ancestor c k x = Some p -> get c x <> None -> get c p <> None ->
              incl (chain c k x) (keys c).
Proof.
  induction k as [|k IH]; intros x p A Gx Gp m H; simpl in H.
  - destruct H as [<-|[]]. apply get_in_keys, Gx.
  - simpl in A. destruct (parentOf c x) as [q|] eqn:P; [|discriminate].
    destruct H as [<-|H]; [apply get_in_keys, Gx|].
    apply (IH q p A); [|exact Gp|exact H].
    destruct k as [|k].
    + simpl in A. congruence.
    + simpl in A. destruct (parentOf c q) as [r|] eqn:Pq; [|discriminate].
      eapply parentOf_get, Pq.
Qed.

(** In a collection without cycles a chain of parents is shorter than the
    collection. *)
Lemma ancestor_bound (c : Files) (k : nat) (x p : string) :
  acyclic c -> ancestor c k x = Some p -> get c p <> None -> k < length c.
Proof.
  intros Ac A Gp.
  assert (Gx : get c x <> None).
  { destruct k as [|k].
    - simpl in A. congruence.
    - simpl in A. destruct (parentOf c x) as [q|] eqn:P; [|discriminate].
      eapply parentOf_get, P. }
  pose proof (NoDup_incl_length (chain_nodup c k Ac x)
                (chain_keys c k x p A Gx Gp)) as L.
  rewrite (chain_length c k x p A) in L. unfold keys in L.
  rewrite length_map in L. lia.
Qed.

Lemma roots_incomparable (c0 c : Files) (rts : list string) :
  Forest c0 c rts -> incomparable c0 rts.
Proof.
  intros Fo p q k Hp _ A. apply (fo_roots _ _ _ Fo) in Hp.
  destruct Hp as [_ P]. destruct k as [|k]; simpl in A; [congruence|].
  rewrite P in A. discriminate.
Qed.

(** The schedule of a built tree. *)
Lemma renderLayouts_built (c : Files) (st : TreeState) :
  buildTree (new_symbols c) = Ok st ->
  exists ls, renderLayouts (S (length c)) (coll st) (roots st) = Ok ls
             /\ Sched c (roots st) (concat ls) /\ NoDup (concat ls).
Proof.
  intros H. pose proof (buildTree_forest c st H) as Fo.
  assert (G : forall p, In p (roots st) -> get c p <> None).
  { intros p Hp. apply (fo_roots _ _ _ Fo) in Hp. tauto. }
  destruct (renderLayouts_sched c (coll st) (roots st) (S (length c)) Fo
              (roots st)) as (ls & E & S).
  - discriminate.
  - exact G.
  - intros p x k Hp A.
    pose proof (ancestor_bound c k x p (fo_acyclic _ _ _ Fo) A (G p Hp)). lia.
  - exists ls. split; [exact E|]. split; [exact S|].
    apply S; [apply (fo_roots_nodup _ _ _ Fo)|].
    apply (roots_incomparable c (coll st) (roots st) Fo).
Qed.

(** ** Deciding the shape of a collection; running the schedule *)

Lemma Rooted_root_above (c : Files) (n : string) :
  Rooted c n ->
  exists r k, ancestor c k n = Some r /\ get c r <> None
              /\ parentOf c r = None.
Proof.
  induction 1 as [n G P|n p P R (r & k & A & G & Pr)].
  - exists n, 0. split; [reflexivity|]. split; assumption.
  - exists r, (S k). simpl. rewrite P. split; [exact A|]. split; assumption.
Qed.

Lemma cycle_never_ends (c : Files) (n : string) (k : nat) :
  ancestor c (S k) n = Some n -> forall j, ancestor c j n <> None.
Proof.
  intros C.
  assert (T : forall t, ancestor c (t * S k) n = Some n).
  { induction t as [|t IH]; [reflexivity|].
    replace (S t * S k) with (S k + t * S k) by lia.
    rewrite ancestor_add, C. exact IH. }
  intros j E. specialize (T j).
  replace (j * S k) with (j + j * k) in T by lia.
  rewrite ancestor_add, E in T. discriminate.
Qed.

Lemma endsb_ends (c : Files) (fuel : nat) :
  forall n, endsb c fuel n = true -> exists j, ancestor c (S j) n = None.
Proof.
  induction fuel as [|fuel IH]; intros n H; [discriminate|].
  simpl in H. destruct (parentOf c n) as [p|] eqn:P.
  - destruct (IH p H) as [j A]. exists (S j).
    change (ancestor c (S (S j)) n)
      with (match parentOf c n with
            | Some q => ancestor c (S j) q
            | None => None
            end).
    rewrite P. exact A.
  - exists 0. simpl. rewrite P. reflexivity.
Qed.

Lemma acyclicb_sound (c : Files) : acyclicb c = true -> acyclic c.
Proof.
  unfold acyclicb. rewrite forallb_forall. intros H n [k C].
  assert (Hn : In n (keys c)).
  { apply get_in_keys. simpl in C.
    destruct (parentOf c n) as [p|] eqn:P; [|discriminate].
    eapply parentOf_get, P. }
  destruct (endsb_ends c _ n (H n Hn)) as [j A].
  exact (cycle_never_ends c n k C (S j) A).
Qed.

Lemma resolvedb_sound (c : Files) : resolvedb c = true -> resolved c.
Proof.
  unfold resolvedb. rewrite forallb_forall. intros H n p P.
  assert (Hn : In n (keys c)).
  { apply get_in_keys. eapply parentOf_get, P. }
  specialize (H n Hn). rewrite P in H.
  destruct (get c p); [discriminate|discriminate].
Qed.

Lemma rendered_map (l : list string) : rendered (map EvRender l) = l.
Proof.
  unfold rendered. induction l as [|x l IH]; simpl; [reflexivity|].
  rewrite IH. reflexivity.
Qed.

Lemma NoDup_split_unique {A : Type} (x : A) (a a' b b' : list A) :
  NoDup (a ++ x :: b) -> a ++ x :: b = a' ++ x :: b' -> a = a'.
Proof.
  revert a'. induction a as [|y a IH]; intros a' ND E.
  - destruct a' as [|z a']; [reflexivity|].
    simpl in E. injection E as <- E. simpl in ND.
    apply NoDup_cons_iff in ND. destruct ND as [Nin _].
    exfalso. apply Nin. rewrite E. apply in_or_app. right. left. reflexivity.
  - destruct a' as [|z a'].
    + simpl in E. injection E as -> E. simpl in ND.
      apply NoDup_cons_iff in ND. destruct ND as [Nin _].
      exfalso. apply Nin. apply in_or_app. right. left. reflexivity.
    + simpl in E. injection E as <- E. simpl in ND.
      apply NoDup_cons_iff in ND. destruct ND as [_ ND].
      rewrite (IH a' ND E). reflexivity.
Qed.

Lemma before_prefix {A : Type} (x y : A) (l rest : list A) :
  NoDup (l ++ rest) -> In y l -> before x y (l ++ rest) -> before x y l.
Proof.
  intros ND Hy (l1 & l2 & E & Hx).
  apply in_split in Hy. destruct Hy as (a & b & ->).
  rewrite <- app_assoc in E, ND. simpl in E, ND.
  rewrite (NoDup_split_unique y a l1 _ l2 ND E).
  exists l1, b. split; [reflexivity|exact Hx].
Qed.

Section Renders.

Variable toTransformer : string -> option Transformer.

(** Everything of a collection but the contents of its records. *)
Lemma renderLevel_frame (cl : list string) (metadata : Obj)
  (settings : Settings) :
  forall c err x,
    option_map (set_contents "")
      (get (fst (renderLevel toTransformer cl c metadata settings err)) x)
    = option_map (set_contents "") (get c x).
Proof.
  induction cl as [|child cl IH]; intros c err x; simpl; [reflexivity|].
  destruct (render toTransformer child c c metadata settings) as [e|body].
  - apply IH.
  - rewrite IH, get_update.
    destruct (String.eqb_spec x child) as [->|_]; [|reflexivity].
    destruct (get c child); reflexivity.
Qed.

Lemma runTasks_frame (levels : list (list string)) (metadata : Obj)
  (settings : Settings) :
  forall c x,
    option_map (set_contents "")
      (get (snd (fst (runTasks toTransformer levels c metadata settings))) x)
    = option_map (set_contents "") (get c x).
Proof.
  induction levels as [|level levels IH]; intros c x; simpl; [reflexivity|].
  pose proof (renderLevel_frame level metadata settings c None x) as L.
  destruct (renderLevel toTransformer level c metadata settings None)
    as [c' [e|]]; simpl in L.
  - exact L.
  - specialize (IH c' x).
    destruct (runTasks toTransformer levels c' metadata settings)
      as [[evs c''] err]. simpl in *. rewrite IH. exact L.
Qed.

Lemma runTasks_keys (levels : list (list string)) (metadata : Obj)
  (settings : Settings) :
  forall c,
    keys (snd (fst (runTasks toTransformer levels c metadata settings)))
    = keys c.
Proof.
  assert (U : forall c k g, keys (update c k g) = keys c).
  { intros c k g. induction c as [|[k' f] c IH]; simpl; [reflexivity|].
    destruct (String.eqb k k'); simpl; [reflexivity|]. f_equal. exact IH. }
  assert (L : forall cl c err,
             keys (fst (renderLevel toTransformer cl c metadata settings err))
             = keys c).
  { induction cl as [|child cl IH]; intros c err; simpl; [reflexivity|].
    destruct (render toTransformer child c c metadata settings).
    - apply IH.
    - rewrite IH. apply U. }
  induction levels as [|level levels IH]; intros c; simpl; [reflexivity|].
  specialize (L level c None).
  destruct (renderLevel toTransformer level c metadata settings None)
    as [c' [e|]]; simpl in L.
  - exact L.
  - specialize (IH c').
    destruct (runTasks toTransformer levels c' metadata settings)
      as [[evs c''] err]. simpl in *. rewrite IH. exact L.
Qed.

(** The renders started are the levels of the schedule up to the first
    level with a failed render; without a failure, all of them. *)
Lemma runTasks_events (levels : list (list string)) (metadata : Obj)
  (settings : Settings) :
  forall c,
    exists started rest,
      concat levels = started ++ rest
      /\ fst (fst (runTasks toTransformer levels c metadata settings))
         = map EvRender started
      /\ (snd (runTasks toTransformer levels c metadata settings) = None ->
          rest = []).
Proof.
  induction levels as [|level levels IH]; intros c; simpl.
  - exists [], []. repeat split; reflexivity.
  - destruct (renderLevel toTransformer level c metadata settings None)
      as [c' [e|]].
    + exists level, (concat levels). simpl.
      split; [reflexivity|]. split; [reflexivity|discriminate].
    + destruct (IH c') as (started & rest & E & Ev & Err).
      destruct (runTasks toTransformer levels c' metadata settings)
        as [[evs c''] err]. simpl in *.
      exists (level ++ started), rest. rewrite E, app_assoc, map_app, Ev.
      split; [reflexivity|]. split; [reflexivity|exact Err].
Qed.

End Renders.

(** ** The pass over the layouts *)

Lemma buildTree_total (c : Files) :
  acyclic c -> resolved c -> exists st, buildTree (new_symbols c) = Ok st.
Proof.
  intros Ac Re. destruct (buildTree (new_symbols c)) as [st|e|] eqn:B.
  - exists st. reflexivity.
  - exfalso. destruct (buildTree_throw c e B)
      as [(m & _ & C)|(x & p & _ & P & G)].
    + exact (Ac m C).
    + exact (Re x p P G).
  - exfalso. exact (buildTree_fuel c B).
Qed.

Section RenderNested.

Variable toTransformer : string -> option Transformer.

(** A pass over a forest: the tree is built, the schedule is run. *)
Lemma renderNestedLayouts_forest (collection : Files) (metadata : Obj)
  (settings : Settings) :
  acyclic collection -> resolved collection ->
  exists st levels started rest,
    buildTree (new_symbols collection) = Ok st
    /\ Sched collection (roots st) (concat levels)
    /\ NoDup (concat levels)
    /\ concat levels = started ++ rest
    /\ fst (renderNestedLayouts toTransformer collection metadata settings)
       = map EvRender started
    /\ snd (renderNestedLayouts toTransformer collection metadata settings)
       <> OutOfFuel
    /\ ((exists c',
           snd (renderNestedLayouts toTransformer collection metadata settings)
           = Ok c') -> rest = []).
Proof.
  intros Ac Re. destruct (buildTree_total collection Ac Re) as [st B].
  destruct (renderLayouts_built collection st B) as (levels & E & S & ND).
  destruct (runTasks_events toTransformer levels metadata settings (coll st))
    as (started & rest & Ec & Ev & Err).
  exists st, levels, started, rest.
  unfold renderNestedLayouts. rewrite B, E.
  destruct (runTasks toTransformer levels (coll st) metadata settings)
    as [[evs c2] [e|]]; simpl in *.
  - do 6 (split; [reflexivity || assumption || discriminate|]).
    intros [c' H]. discriminate.
  - do 6 (split; [reflexivity || assumption || discriminate|]).
    intros _. apply Err. reflexivity.
Qed.

(** C1 (as amended).  Over a collection without cycles the renders of the
    layouts are started parent first: no layout is rendered twice, a
    parentless layout is not rendered at all, the render of a layout that
    is rendered comes strictly before the render of each of its children,
    and when the pass succeeds every layout with a parent has been rendered.
    Nothing is said about the order of two layouts of different trees. *)
Theorem renderNestedLayouts_parent_first (collection : Files)
  (metadata : Obj) (settings : Settings) :
  acyclic collection ->
  let out := renderNestedLayouts toTransformer collection metadata settings in
  let T := rendered (fst out) in
  snd out <> OutOfFuel
  /\ fst out = map EvRender T
  /\ NoDup T
  /\ (forall n, In n T -> parentOf collection n <> None)
  /\ (forall n p, In n T -> parentOf collection n = Some p ->
                  parentOf collection p <> None -> before p n T)
  /\ ((exists c', snd out = Ok c') ->
      forall n, parentOf collection n <> None -> In n T).
Proof.
  intros Ac out T.
  destruct (buildTree (new_symbols collection)) as [st0|e|] eqn:B0.
  3:{ exfalso. exact (buildTree_fuel collection B0). }
  2:{ assert (Eo : out = ([], Throw e)).
      { unfold out, renderNestedLayouts. rewrite B0. reflexivity. }
      unfold T. rewrite Eo. simpl.
      split; [discriminate|]. split; [reflexivity|]. split; [constructor|].
      split; [intros n []|]. split; [intros n p []|].
      intros [c' H]. discriminate. }
  destruct (buildTree_ok_forest collection st0 B0) as [_ Re].
  destruct (renderNestedLayouts_forest collection metadata settings Ac Re)
    as (st & levels & started & rest & B & (M & O & _) & ND & E & Ev & Fu & Ok').
  fold out in Ev, Fu, Ok'.
  assert (ET : T = started).
  { unfold T. rewrite Ev. apply rendered_map. }
  pose proof (buildTree_forest collection st B) as Fo.
  rewrite ET. split; [exact Fu|]. split; [exact Ev|].
  rewrite E in ND. split; [exact (NoDup_app_remove_r _ _ ND)|].
  assert (In_all : forall n, In n started -> In n (concat levels)).
  { intros n Hn. rewrite E. apply in_or_app. left. exact Hn. }
  split; [|split].
  - intros n Hn P. apply In_all, M in Hn. destruct Hn as (p & k & _ & A).
    simpl in A. rewrite P in A. discriminate.
  - intros n p Hn P Pp.
    destruct (O n p (In_all n Hn) P) as [Hp|Bf].
    + exfalso. apply (fo_roots _ _ _ Fo) in Hp. destruct Hp as [_ Hp].
      exact (Pp Hp).
    + rewrite E in Bf. exact (before_prefix p n started rest ND Hn Bf).
  - intros Hok n P. rewrite (Ok' Hok), app_nil_r in E. rewrite <- E.
    apply M.
    assert (Gn : get collection n <> None).
    { destruct (parentOf collection n) as [p|] eqn:Pn; [|congruence].
      eapply parentOf_get, Pn. }
    destruct (buildTree_ok collection st B) as (I & _ & F).
    destruct (Rooted_root_above collection n (inv_rooted _ _ I n (F n Gn)))
      as (r & k & A & Gr & Pr).
    destruct k as [|k].
    + simpl in A. injection A as <-. contradiction.
    + exists r, k. split; [|exact A]. apply (fo_roots _ _ _ Fo). tauto.
Qed.



(** What the clean-up leaves of a collection whose pass succeeded. *)
Lemma renderNestedLayouts_cleanup (collection : Files) (metadata : Obj)
  (settings : Settings) (evs : list Event) (c' : Files) :
  renderNestedLayouts toTransformer collection metadata settings
  = (evs, Ok c') ->
  keys c' = keys collection
  /\ forall n f',
      get c' n = Some f' ->
      layout f' = LUndefined /\ seen f' = false /\ finished f' = false
      /\ children f' = None
      /\ exists f, get collection n = Some f /\ data f' = data f.
Proof.
  unfold renderNestedLayouts. intros H.
  destruct (buildTree (new_symbols collection)) as [st|e|] eqn:B;
    try discriminate.
  destruct (renderLayouts _ (coll st) (roots st)) as [levels|e|];
    try discriminate.
  pose proof (runTasks_frame toTransformer levels metadata settings (coll st))
    as Fr.
  pose proof (runTasks_keys toTransformer levels metadata settings (coll st))
    as Ks.
  destruct (runTasks toTransformer levels (coll st) metadata settings)
    as [[evs2 c2] [e|]]; try discriminate.
  injection H as _ <-. simpl in Fr, Ks.
  destruct (buildTree_ok collection st B) as (I & S & _).
  split.
  - transitivity (keys c2).
    + unfold cleanup, keys. rewrite map_map. reflexivity.
    + rewrite Ks. apply shape_keys, (inv_shape _ _ I).
  - intros n f' G. unfold cleanup in G.
    rewrite (get_map_snd
               (fun f => delete_layout (set_finished false
                                          (set_children None f)))) in G.
    destruct (get c2 n) as [f2|] eqn:G2; [|discriminate].
    injection G as <-. simpl.
    specialize (Fr n). rewrite G2 in Fr. specialize (S n).
    unfold seenIn in S.
    pose proof (shape_get _ _ n (inv_shape _ _ I)) as Sh.
    destruct (get (coll st) n) as [f1|]; [|discriminate].
    simpl in Fr, Sh. injection Fr as _ Ed Es _ _.
    destruct (get collection n) as [f|]; [|discriminate].
    simpl in Sh. injection Sh as _ Ed'.
    repeat split; try reflexivity.
    + congruence.
    + exists f. split; [reflexivity|congruence].
Qed.

End RenderNested.

(** ** Contexts, valid files and the clean-up *)

Lemma get_app {A : Type} (a b : list (string * A)) (k : string) :
  get (a ++ b) k = match get a k with
                   | Some v => Some v
                   | None => get b k
                   end.
Proof.
  induction a as [|[k' v] a IH]; simpl; [reflexivity|].
  destruct (String.eqb k k'); [reflexivity|exact IH].
Qed.

Lemma get_assign (target source : Obj) (k : string) :
  get (assign target source) k = overlay (get target) source k.
Proof. unfold assign, overlay. apply get_app. Qed.

Lemma overlay_eq (f g : string -> option JsValue) (upper : Obj) (k : string) :
  f k = g k -> overlay f upper k = overlay g upper k.
Proof. intros E. unfold overlay. rewrite E. reflexivity. Qed.

(** The loop from the last layout to the first overlays the oldest ancestor
    first. *)
Lemma locals_loop (metadata : Obj) (collection : Files)
  (layouts : list string) (k : string) :
  get (fold_right (fun l acc => assign acc (props_of collection l))
                  (assign [] metadata) layouts) k
  = fold_left overlay (rev (map (props_of collection) layouts))
              (get metadata) k.
Proof.
  revert k. induction layouts as [|l layouts IH]; intros k; simpl.
  - rewrite get_assign. unfold overlay. destruct (get metadata k); reflexivity.
  - rewrite fold_left_app. simpl. rewrite get_assign. unfold overlay.
    rewrite IH. reflexivity.
Qed.

(** The outer layouts are the ancestors of the layout of the file, one by
    one, up to the one without a parent. *)
Lemma outerLayouts_ancestors (collection : Files) (fuel : nat) :
  forall l layouts,
    outerLayouts fuel collection l = Ok layouts ->
    layouts = chain collection (length layouts - 1) l
    /\ ancestor collection (length layouts) l = None
    /\ length layouts <> 0.
Proof.
  induction fuel as [|fuel IH]; intros l layouts H; [discriminate|].
  simpl in H. destruct (get collection l) as [f|] eqn:G; [|discriminate].
  assert (P : parentOf collection l = truthy (layout f)).
  { unfold parentOf. rewrite G. reflexivity. }
  destruct (truthy (layout f)) as [next|].
  - destruct (outerLayouts fuel collection next) as [rest| |] eqn:R;
      simpl in H; try discriminate.
    injection H as <-. destruct (IH next rest R) as (E & A & L).
    simpl. rewrite P. split; [|split; [exact A|discriminate]].
    rewrite Nat.sub_0_r. destruct (length rest) as [|m] eqn:Len; [congruence|].
    simpl. rewrite P. simpl in E. rewrite Nat.sub_0_r in E.
    rewrite <- E. reflexivity.
  - injection H as <-. simpl. rewrite P. repeat split. discriminate.
Qed.

(** C3 (as amended).  In the chain variant the context handed to the engine
    is the shared metadata, overlaid oldest ancestor first by the record of
    every layout in the chain of the file, overlaid by the record of the
    file, with the current text under [contents]; the chain is the layout of
    the file followed by its ancestors.  In the nested variant the context is
    the shared metadata overlaid by the record of the file with its text
    under [contents]: no record of a layout takes part. *)
Theorem render_context (metadata : Obj) (collection : Files) (file : File) :
  (forall layouts text k,
      get (assign (locals_chain metadata collection layouts file)
                  [("contents", VStr text)]) k
      = spec_context metadata (rev (map (props_of collection) layouts))
                     (props file) text k)
  /\ (forall fuel l layouts,
         outerLayouts fuel collection l = Ok layouts ->
         layouts = chain collection (length layouts - 1) l
         /\ ancestor collection (length layouts) l = None)
  /\ (forall k,
         get (locals_nested metadata file) k
         = spec_context metadata [] (props file) (contents file) k).
Proof.
  split; [|split].
  - intros layouts text k. unfold spec_context, locals_chain.
    rewrite get_assign. apply overlay_eq.
    rewrite get_assign. apply overlay_eq. apply locals_loop.
  - intros fuel l layouts H.
    destruct (outerLayouts_ancestors collection fuel l layouts H)
      as (E & A & _).
    split; assumption.
  - intros k. unfold spec_context, locals_nested.
    rewrite get_assign. apply overlay_eq.
    rewrite get_assign. apply overlay_eq.
    rewrite get_assign. unfold overlay. simpl.
    destruct (get metadata k); reflexivity.
Qed.

Section Pass.

Variable toTransformer : string -> option Transformer.
Variable isUtf8 : string -> bool.
Variable multimatch : list string -> list string -> list string.

Lemma validateFile_iff (file : File) (settings : Settings) :
  validateFile toTransformer isUtf8 file settings = true <->
  exists l, getLayout file settings = LName l
            /\ l <> ""
            /\ includes_dot l = true
            /\ isUtf8 (contents file) = true
            /\ getTransformer toTransformer (extension l) <> None.
Proof.
  unfold validateFile. split.
  - destruct (getLayout file settings) as [| |l]; try discriminate.
    destruct (String.eqb_spec l "") as [|Hl]; [discriminate|].
    destruct (includes_dot l) eqn:Dot; simpl; [|discriminate].
    destruct (isUtf8 (contents file)) eqn:Utf; simpl; [|discriminate].
    destruct (getTransformer toTransformer (extension l)) eqn:T;
      [|discriminate].
    intros _. exists l. rewrite T.
    split; [reflexivity|]. split; [exact Hl|].
    split; [exact Dot|]. split; [reflexivity|discriminate].
  - intros (l & -> & Hl & -> & -> & T).
    destruct (String.eqb_spec l ""); [contradiction|]. simpl.
    destruct (getTransformer toTransformer (extension l)); [reflexivity|].
    contradiction.
Qed.

Lemma filterValid_ok (names : list string) (files : Files)
  (settings : Settings) :
  (forall f, In f names -> get files f <> None) ->
  exists valid,
    filterValid toTransformer isUtf8 names files settings = Ok valid
    /\ forall f, In f valid <->
                 In f names
                 /\ exists file, get files f = Some file
                                 /\ validateFile toTransformer isUtf8 file
                                                 settings = true.
Proof.
  induction names as [|n names IH]; intros G; simpl.
  - exists []. split; [reflexivity|]. intros f. simpl. tauto.
  - destruct IH as (valid & E & M).
    { intros f Hf. apply G. right. exact Hf. }
    unfold validate. destruct (get files n) as [file|] eqn:Gn.
    2:{ exfalso. apply (G n); [left; reflexivity|exact Gn]. }
    simpl. rewrite E. simpl.
    destruct (validateFile toTransformer isUtf8 file settings) eqn:V.
    + exists (n :: valid). split; [reflexivity|]. intros f. simpl.
      rewrite M. split.
      * intros [<-|[Hf X]]; [|tauto].
        split; [left; reflexivity|]. exists file. split; assumption.
      * intros [[<-|Hf] X]; [left; reflexivity|right; tauto].
    + exists valid. split; [reflexivity|]. intros f. rewrite M. split.
      * intros [Hf X]. split; [right; exact Hf|exact X].
      * intros [[<-|Hf] X]; [|tauto].
        destruct X as (file' & Gf & V'). rewrite Gn in Gf.
        injection Gf as <-. congruence.
Qed.

(** The files that are processed are the matched files whose layout,
    explicit or default, is a non-empty name with a dot, whose contents are
    UTF-8 and for whose extension, the part after the last dot, there is a
    transformer; [pattern] stands for the configured pattern followed by the
    negated pattern of the layout directory.  Finding them never throws. *)
Theorem validFiles_iff (pattern : list string) (files : Files)
  (settings : Settings) :
  (forall names pat f, In f (multimatch names pat) -> In f names) ->
  exists validFiles,
    filterValid toTransformer isUtf8 (multimatch (keys files) pattern)
                files settings = Ok validFiles
    /\ forall filename,
        In filename validFiles <->
        In filename (multimatch (keys files) pattern)
        /\ exists file l,
            get files filename = Some file
            /\ getLayout file settings = LName l
            /\ l <> ""
            /\ includes_dot l = true
            /\ isUtf8 (contents file) = true
            /\ getTransformer toTransformer (extension l) <> None.
Proof.
  intros Sub.
  destruct (filterValid_ok (multimatch (keys files) pattern) files settings)
    as (valid & E & M).
  { intros f Hf. apply get_in_keys. eapply Sub, Hf. }
  exists valid. split; [exact E|]. intros f. rewrite M. split.
  - intros [Hf (file & G & V)]. split; [exact Hf|].
    apply validateFile_iff in V. destruct V as (l & V).
    exists file, l. split; [exact G|exact V].
  - intros [Hf (file & l & G & V)]. split; [exact Hf|].
    exists file. split; [exact G|]. apply validateFile_iff.
    exists l. exact V.
Qed.

(** C6.  The explicit [layout] of a record wins when it is [false] or a
    non-empty name, and [false] makes the record invalid; otherwise the
    configured default is taken, and a record with neither is invalid. *)
Theorem getLayout_precedence (file : File) (settings : Settings) :
  (layout file = LFalse ->
   getLayout file settings = LFalse
   /\ validateFile toTransformer isUtf8 file settings = false)
  /\ (forall s, layout file = LName s -> s <> "" ->
                getLayout file settings = LName s)
  /\ (layout file = LUndefined \/ layout file = LName "" ->
      getLayout file settings = s_default settings)
  /\ (layout file = LUndefined -> s_default settings = LUndefined ->
      getLayout file settings = LUndefined
      /\ validateFile toTransformer isUtf8 file settings = false).
Proof.
  unfold validateFile, getLayout. split; [|split; [|split]].
  - intros ->. split; reflexivity.
  - intros s -> Hs. destruct (String.eqb_spec s ""); [contradiction|].
    reflexivity.
  - intros [->| ->]; reflexivity.
  - intros -> ->. split; reflexivity.
Qed.

Lemma renderNestedLayouts_events (collection : Files) (metadata : Obj)
  (settings : Settings) :
  exists l,
    fst (renderNestedLayouts toTransformer collection metadata settings)
    = map EvRender l.
Proof.
  unfold renderNestedLayouts.
  destruct (buildTree (new_symbols collection)) as [st|e|];
    try (exists []; reflexivity).
  destruct (renderLayouts _ (coll st) (roots st)) as [levels|e|];
    try (exists []; reflexivity).
  destruct (runTasks_events toTransformer levels metadata settings (coll st))
    as (started & rest & _ & Ev & _).
  exists started.
  destruct (runTasks toTransformer levels (coll st) metadata settings)
    as [[evs c2] [e|]]; exact Ev.
Qed.

Lemma done_not_render (l : list string) (r : option Error) :
  ~ In (EvDone r) (map EvRender l).
Proof.
  intros H. apply in_map_iff in H. destruct H as (x & E & _). discriminate.
Qed.

Variable multimatch_any : list string -> list JsValue -> Res (list string).

(** C9.  When the nested variant reports success, every record of the layout
    collection has lost its [layout] property and the three markers, and
    keeps its key and its data; only the contents may differ. *)
Theorem plugin_strips_layouts (options : Options) (old_prefix : string)
  (files : Files) (ms : Metalsmith) :
  let settings := mergeSettings options in
  let collection :=
    getCollection multimatch
                  (setLayoutsPrefix true old_prefix ms settings)
                  files ms settings in
  let pass := plugin toTransformer isUtf8 multimatch multimatch_any options old_prefix
                     files ms in
  In (EvDone None) (events pass) ->
  exists c',
    out_collection pass = Some c'
    /\ keys c' = keys collection
    /\ forall n f',
        get c' n = Some f' ->
        layout f' = LUndefined /\ seen f' = false /\ finished f' = false
        /\ children f' = None
        /\ exists f, get collection n = Some f /\ data f' = data f.
Proof.
  intros settings collection pass. unfold pass, plugin.
  fold settings. fold collection.
  destruct (s_pattern settings) as [s|l|].
  3:{ simpl. intros [H|[]]. discriminate. }
  all: match goal with
       | |- context [bind ?m ?k] =>
           destruct (bind m k) as [validFiles|e|]
       end;
    try (simpl; intros []).
  all: destruct (renderNestedLayouts_events collection (ms_metadata ms)
                   settings) as [started Ev];
    pose proof (renderNestedLayouts_cleanup toTransformer collection
                  (ms_metadata ms) settings) as Cl;
    destruct (renderNestedLayouts toTransformer collection (ms_metadata ms)
                                  settings) as [evs [c'|e|]];
    simpl in Ev; subst evs.
  all: try (destruct (renderContents _ _ _ _ _ _ _) as [files' err]; simpl;
            intros _; exists c'; split; [reflexivity|];
            exact (Cl _ c' eq_refl)).
  all: simpl; intros H; exfalso;
    repeat (apply in_app_or in H; destruct H as [H|H]);
    try (exact (done_not_render _ _ H));
    destruct validFiles; simpl in H;
    repeat (destruct H as [H|H]; try discriminate); try contradiction.
Qed.

End Pass.

(** ** Fatal configuration errors *)

Section Fatal.

Variable toTransformer : string -> option Transformer.
Variable isUtf8 : string -> bool.
Variable multimatch : list string -> list string -> list string.
Variable multimatch_any : list string -> list JsValue -> Res (list string).

(** C8.  With a [pattern] option that is neither a string nor an array, the
    first thing either variant does is to call [done] with the
    invalid-pattern error, and no render is started. *)
Theorem invalid_pattern_fatal (options : Options) (old_prefix : string)
  (files : Files) (ms : Metalsmith) :
  (forall names, multimatch names [] = []) ->
  s_pattern (mergeSettings options) = POther ->
  let nested := plugin toTransformer isUtf8 multimatch multimatch_any options old_prefix
                       files ms in
  let chained := plugin_chain toTransformer isUtf8 multimatch multimatch_any options
                              old_prefix files ms in
  (hd_error (events nested) = Some (EvDone (Some InvalidPattern))
   /\ rendered (events nested) = []
   /\ ~ In (EvDone None) (events nested))
  /\ (hd_error (events chained) = Some (EvDone (Some InvalidPattern))
      /\ rendered (events chained) = []
      /\ ~ In (EvDone None) (events chained)).
Proof.
  intros M0 Hp nested chained. split.
  - unfold nested, plugin. rewrite Hp. simpl.
    split; [reflexivity|]. split; [reflexivity|].
    intros [H|[]]. discriminate.
  - unfold chained, plugin_chain. rewrite Hp.
    destruct (negb (String.eqb
                      (setLayoutsPrefix false old_prefix ms
                                        (mergeSettings options)) "")).
    + simpl. split; [reflexivity|]. split; [reflexivity|].
      intros [H|[]]. discriminate.
    + unfold matchFiles. simpl. rewrite M0. simpl.
      split; [reflexivity|]. split; [reflexivity|].
      intros [H|[H|[]]]; discriminate.
Qed.

End Fatal.

(** ** The plugin on concrete inputs *)

(** C7.  With layouts but no content file the nested variant calls [done]
    with the no-files error, then renders the layout [page.hbs] and calls
    [done] again without an error; the chain variant stops after the
    error. *)
Theorem no_files_nested_goes_on :
  events (plugin demo_toTransformer demo_isUtf8 demo_multimatch demo_multimatch_any demo_options
                 "" layouts_only (demo_host []))
  = [EvDone (Some NoFilesToProcess); EvRender "page.hbs"; EvDone None]
  /\ events (plugin_chain demo_toTransformer demo_isUtf8 demo_multimatch demo_multimatch_any
                          demo_options "" layouts_only (demo_host []))
     = [EvDone (Some NoFilesToProcess)].
Proof. split; vm_compute; reflexivity. Qed.

(** C4.  With a content file whose layout is missing the nested variant
    calls [done] without an error although the render of the file was
    rejected; the chain variant passes the failure to [done]. *)
Theorem missing_layout_nested_reports_success :
  (let pass := plugin demo_toTransformer demo_isUtf8 demo_multimatch demo_multimatch_any
                      demo_options "" missing_layout (demo_host []) in
   events pass = [EvRender "index.md"; EvDone None]
   /\ unhandled pass = [CannotFindLayout "missing.hbs"])
  /\ events (plugin_chain demo_toTransformer demo_isUtf8 demo_multimatch demo_multimatch_any
                          demo_options "" missing_layout (demo_host []))
     = [EvRender "index.md"; EvDone (Some (TypeError "missing.hbs"))].
Proof. split; [split|]; vm_compute; reflexivity. Qed.

(** C5.  With the layout directory outside the source the nested variant
    adds the pattern [!**]: the file [index.md], which passes every check of
    [validate], is not processed; the chain variant processes it. *)
Theorem outside_layouts_nested_drops_all :
  validateFile demo_toTransformer demo_isUtf8
               (plain (LName "base.hbs") "hello" [])
               (mergeSettings demo_options) = true
  /\ In "index.md" (demo_multimatch (keys one_page) ["**"])
  /\ events (plugin demo_toTransformer demo_isUtf8 demo_multimatch demo_multimatch_any
                    demo_options "" one_page outside_host)
     = [EvDone (Some NoFilesToProcess); EvDone None]
  /\ events (plugin_chain demo_toTransformer demo_isUtf8 demo_multimatch demo_multimatch_any
                          demo_options "" one_page outside_host)
     = [EvRender "index.md"; EvDone None].
Proof.
  split; [vm_compute; reflexivity|].
  split; [vm_compute; left; reflexivity|].
  split; vm_compute; reflexivity.
Qed.

(** ** Instances *)


Lemma acyclic_two_trees : acyclic two_trees.
Proof. apply acyclicb_sound. vm_compute. reflexivity. Qed.

Lemma resolved_two_trees : resolved two_trees.
Proof. apply resolvedb_sound. vm_compute. reflexivity. Qed.

Lemma renderNestedLayouts_parent_first_witness :
  acyclic two_trees /\ resolved two_trees
  /\ before "a.hbs" "b.hbs"
       (rendered (fst (renderNestedLayouts demo_toTransformer two_trees []
                                           (mergeSettings demo_options)))).
Proof.
  split; [exact acyclic_two_trees|]. split; [exact resolved_two_trees|].
  apply (renderNestedLayouts_parent_first demo_toTransformer two_trees []
           (mergeSettings demo_options) acyclic_two_trees).
  - vm_compute. right. left. reflexivity.
  - vm_compute. reflexivity.
  - vm_compute. discriminate.
Defined.

(** The claim as stated fails: a layout of the third level is rendered
    before a layout of the second level of another tree, and the parentless
    layouts are not rendered. *)
Lemma renderNestedLayouts_not_level_order :
  ~ (forall toTransformer collection metadata settings,
        acyclic collection ->
        let T := rendered (fst (renderNestedLayouts toTransformer collection
                                                    metadata settings)) in
        level_ordered collection T = true
        /\ forall n, get collection n <> None ->
                     parentOf collection n = None -> In n T).
Proof.
  intros H.
  destruct (H demo_toTransformer two_trees [] (mergeSettings demo_options)
              acyclic_two_trees) as [L _].
  vm_compute in L. discriminate.
Qed.





Lemma render_context_witness :
  get (assign (locals_chain spec_metadata spec_collection ["base.hbs"]
                            spec_content)
              [("contents", VStr "CONTENT")]) "a" = Some (VNum 3)
  /\ get (assign (locals_chain spec_metadata spec_collection ["base.hbs"]
                               spec_content)
                 [("contents", VStr "CONTENT")]) "b" = Some (VNum 2)
  /\ outerLayouts 2 spec_collection "base.hbs" = Ok ["base.hbs"]
  /\ ancestor spec_collection 1 "base.hbs" = None.
Proof.
  destruct (render_context spec_metadata spec_collection spec_content)
    as (Hc & Ho & _).
  split; [rewrite Hc; vm_compute; reflexivity|].
  split; [rewrite Hc; vm_compute; reflexivity|].
  split; [vm_compute; reflexivity|].
  apply (Ho 2 "base.hbs" ["base.hbs"]). vm_compute. reflexivity.
Defined.

(** The claim as stated fails in the nested variant: on the example of the
    specification the context has no [b]. *)
Lemma render_context_nested_without_ancestors :
  ~ (forall metadata collection file fuel l layouts k,
        layout file = LName l ->
        outerLayouts fuel collection l = Ok layouts ->
        get (locals_nested metadata file) k
        = spec_context metadata (rev (map (props_of collection) layouts))
                       (props file) (contents file) k).
Proof.
  intros H.
  specialize (H spec_metadata spec_collection spec_content 1 "base.hbs"
                ["base.hbs"] "b" eq_refl eq_refl).
  vm_compute in H. discriminate.
Qed.

Lemma getLayout_precedence_witness :
  layout (plain LFalse "hello" []) = LFalse
  /\ getLayout (plain LFalse "hello" [])
               (mkSettings (PString "**") "layouts" (LName "base.hbs") [])
     = LFalse
  /\ getLayout (plain LUndefined "hello" [])
               (mkSettings (PString "**") "layouts" (LName "base.hbs") [])
     = LName "base.hbs"
  /\ validateFile demo_toTransformer demo_isUtf8 (plain LUndefined "hello" [])
                  (mergeSettings demo_options) = false.
Proof.
  split; [reflexivity|]. split; [|split].
  - apply (getLayout_precedence demo_toTransformer demo_isUtf8
             (plain LFalse "hello" [])
             (mkSettings (PString "**") "layouts" (LName "base.hbs") [])).
    reflexivity.
  - destruct (getLayout_precedence demo_toTransformer demo_isUtf8
                (plain LUndefined "hello" [])
                (mkSettings (PString "**") "layouts" (LName "base.hbs") []))
      as (_ & _ & H & _).
    apply H. left. reflexivity.
  - destruct (getLayout_precedence demo_toTransformer demo_isUtf8
                (plain LUndefined "hello" []) (mergeSettings demo_options))
      as (_ & _ & _ & H).
    apply H; reflexivity.
Defined.

Lemma invalid_pattern_fatal_witness :
  (forall names, demo_multimatch names [] = [])
  /\ s_pattern (mergeSettings (mkOptions (Some POther) None LUndefined None))
     = POther
  /\ hd_error (events (plugin demo_toTransformer demo_isUtf8 demo_multimatch demo_multimatch_any
                              (mkOptions (Some POther) None LUndefined None)
                              "" site (demo_host [])))
     = Some (EvDone (Some InvalidPattern))
  /\ rendered (events (plugin_chain demo_toTransformer demo_isUtf8
                                    demo_multimatch demo_multimatch_any
                                    (mkOptions (Some POther) None LUndefined
                                               None)
                                    "" one_page outside_host))
     = [].
Proof.
  split; [reflexivity|]. split; [reflexivity|]. split.
  - apply (invalid_pattern_fatal demo_toTransformer demo_isUtf8
             demo_multimatch demo_multimatch_any (mkOptions (Some POther) None LUndefined None)
             "" site (demo_host [])); reflexivity.
  - apply (invalid_pattern_fatal demo_toTransformer demo_isUtf8
             demo_multimatch demo_multimatch_any (mkOptions (Some POther) None LUndefined None)
             "" one_page outside_host); reflexivity.
Defined.

Lemma plugin_strips_layouts_witness :
  In (EvDone None)
     (events (plugin demo_toTransformer demo_isUtf8 demo_multimatch demo_multimatch_any
                     demo_options "" site (demo_host [])))
  /\ exists c',
      out_collection (plugin demo_toTransformer demo_isUtf8 demo_multimatch demo_multimatch_any
                             demo_options "" site (demo_host []))
      = Some c'
      /\ keys c' = ["base.hbs"; "page.hbs"]
      /\ forall n f',
          get c' n = Some f' ->
          layout f' = LUndefined /\ seen f' = false /\ finished f' = false
          /\ children f' = None.
Proof.
  assert (D : In (EvDone None)
                 (events (plugin demo_toTransformer demo_isUtf8
                                 demo_multimatch demo_multimatch_any demo_options "" site
                                 (demo_host [])))).
  { vm_compute. right. right. left. reflexivity. }
  split; [exact D|].
  destruct (plugin_strips_layouts demo_toTransformer demo_isUtf8
              demo_multimatch demo_multimatch_any demo_options "" site (demo_host []) D)
    as (c' & E & K & F).
  exists c'. split; [exact E|]. split; [exact K|].
  intros n f' G. destruct (F n f' G) as (H1 & H2 & H3 & H4 & _).
  repeat split; assumption.
Defined.

Lemma validFiles_iff_witness :
  (forall names pat f, In f (demo_multimatch names pat) -> In f names)
  /\ exists validFiles,
      filterValid demo_toTransformer demo_isUtf8
                  (demo_multimatch (keys site) ["**"; "!layouts/**"])
                  site (mergeSettings demo_options) = Ok validFiles
      /\ (In "index.md" validFiles <->
          In "index.md" (demo_multimatch (keys site) ["**"; "!layouts/**"])
          /\ exists file l,
              get site "index.md" = Some file
              /\ getLayout file (mergeSettings demo_options) = LName l
              /\ l <> ""
              /\ includes_dot l = true
              /\ demo_isUtf8 (contents file) = true
              /\ getTransformer demo_toTransformer (extension l) <> None).
Proof.
  assert (S : forall names pat f,
             In f (demo_multimatch names pat) -> In f names).
  { intros names pat f. unfold demo_multimatch.
    assert (G : forall ret, (forall x, In x ret -> In x names) ->
                            In f (fold_left
                                    (fun ret pat =>
                                       match pat with
                                       | String "!"%char neg =>
                                           filter (fun n => negb (demo_glob neg n)) ret
                                       | _ =>
                                           ret ++ filter
                                             (fun n => demo_glob pat n
                                                       && negb (existsb (String.eqb n) ret))
                                             names
                                       end) pat ret) -> In f names).
    { induction pat as [|p pat IH]; intros ret Hret; simpl.
      - apply Hret.
      - apply IH. intros x Hx.
        destruct p as [|a p']; [|destruct (Ascii.eqb_spec a "!"%char) as [->|Ha]].
        + apply in_app_or in Hx. destruct Hx as [Hx|Hx]; [apply Hret, Hx|].
          apply filter_In in Hx. tauto.
        + apply filter_In in Hx. apply Hret. tauto.
        + assert (Hx' : In x (ret ++ filter
                                 (fun n => demo_glob (String a p') n
                                           && negb (existsb (String.eqb n) ret))
                                 names)).
          { destruct a as [[] [] [] [] [] [] [] []]; try exact Hx.
            exfalso. apply Ha. reflexivity. }
          apply in_app_or in Hx'. destruct Hx' as [Hx'|Hx']; [apply Hret, Hx'|].
          apply filter_In in Hx'. tauto. }
    apply G. intros x []. }
  split; [exact S|].
  destruct (validFiles_iff demo_toTransformer demo_isUtf8 demo_multimatch
              ["**"; "!layouts/**"] site (mergeSettings demo_options) S)
    as (valid & E & M).
  exists valid. split; [exact E|]. apply M.
Defined.

(** The claim as stated fails: an explicit empty layout is not returned, the
    configured default is. *)
Lemma getLayout_empty_layout_falls_back :
  ~ (forall file settings s,
        layout file = LName s -> getLayout file settings = LName s).
Proof.
  intros H.
  specialize (H (plain (LName "") "hello" [])
                (mkSettings (PString "**") "layouts" (LName "base.hbs") [])
                "" eq_refl).
  vm_compute in H. discriminate.
Qed.

(** The claim as stated fails: an array with an element that is no string
    passes the test of the pattern, and [done] is not called with the
    invalid-pattern error. *)
Lemma invalid_pattern_array_not_checked :
  ~ (forall toTransformer isUtf8 multimatch multimatch_any options old_prefix
            files ms,
        string_or_strings (s_pattern (mergeSettings options)) = false ->
        hd_error (events (plugin toTransformer isUtf8 multimatch
                                 multimatch_any options old_prefix files ms))
        = Some (EvDone (Some InvalidPattern))).
Proof.
  intros H.
  specialize (H demo_toTransformer demo_isUtf8 demo_multimatch
                demo_multimatch_any
                (mkOptions (Some (PArray [VNum 42])) None LUndefined None)
                "" site (demo_host []) eq_refl).
  vm_compute in H. discriminate.
Qed.
